(** * Visual benchmarking: the Instrumentor trace writer and its scope timers

    A shallow embedding of [visual_benchmarking.h] (the [Instrumentor]
    singleton, [InstrumentationTimer]) together with the part of
    [std::ofstream] the header relies on, and the properties of the trace
    file it writes. *)

From Stdlib Require Import ZArith Ascii String DecimalString DecimalZ DecimalFacts.
From stdpp Require Import gmap strings list fin_maps.

Local Open Scope Z_scope.

(** Let [simpl] compute the concatenation of a literal with a text. *)
#[local] Arguments String.append !_ _ : simpl nomatch.

(** ** Characters and decimal output *)

(** The double quote and the backslash, written by code point. *)
Definition dq : ascii := "034"%char.
Definition bslash : ascii := "092"%char.
Definition apostrophe : ascii := "'"%char.

Definition str1 (c : ascii) : string := String c EmptyString.

(** [operator<<] on an integer: decimal digits, a leading minus sign for a
    negative value. *)
Definition show_int (z : Z) : string := NilZero.string_of_int (Z.to_int z).

(** ** Machine integers

    [m_ProfileCount] is an [int], timestamps are [long long], the thread id
    is a [uint32_t].  Signed overflow is undefined behaviour: the operations
    below return [None] for an execution that runs into it. *)
Definition INT_MAX : Z := 2147483647.
Definition LLONG_MIN : Z := -9223372036854775808.
Definition LLONG_MAX : Z := 9223372036854775807.
Definition in_llong (z : Z) : bool := (LLONG_MIN <=? z) && (z <=? LLONG_MAX).
Definition to_uint32 (z : Z) : Z := z mod 4294967296.

(** ** Data *)

Record ProfileResult := mkProfileResult {
  Name : string;
  Start : Z;
  End : Z;
  ThreadID : Z
}.

Record InstrumentationSession := mkSession { session_Name : string }.

(** [std::ofstream]: the path of the file it has open, if any, and whether
    [good()] holds (neither [failbit] nor [badbit] is set). *)
Record ofstream := mkOfstream {
  os_file : option string;
  os_good : bool
}.

Record Instrumentor := mkInstrumentor {
  m_CurrentSession : option InstrumentationSession;
  m_OutputStream : ofstream;
  m_ProfileCount : Z
}.

(** The singleton together with what it acts on: the files by path, the
    paths that cannot be opened for writing, and the lines sent to
    [std::cout]. *)
Record State := mkState {
  instr : Instrumentor;
  files : gmap string string;
  unwritable : gset string;
  console : list string
}.

(** [Instrumentor::Instrumentor()] on first use of [Get()]. *)
Definition Instrumentor_init : Instrumentor :=
  mkInstrumentor None (mkOfstream None true) 0.

Definition initial (fs : gmap string string) (ro : gset string) : State :=
  mkState Instrumentor_init fs ro [].

Definition set_stream (os : ofstream) (s : State) : State :=
  mkState (mkInstrumentor (m_CurrentSession (instr s)) os (m_ProfileCount (instr s)))
          (files s) (unwritable s) (console s).

Definition set_session (cs : option InstrumentationSession) (s : State) : State :=
  mkState (mkInstrumentor cs (m_OutputStream (instr s)) (m_ProfileCount (instr s)))
          (files s) (unwritable s) (console s).

Definition set_count (n : Z) (s : State) : State :=
  mkState (mkInstrumentor (m_CurrentSession (instr s)) (m_OutputStream (instr s)) n)
          (files s) (unwritable s) (console s).

Definition set_files (fs : gmap string string) (s : State) : State :=
  mkState (instr s) fs (unwritable s) (console s).

(** [std::cout << line << std::endl]. *)
Definition cout (line : string) (s : State) : State :=
  mkState (instr s) (files s) (unwritable s) (console s ++ [line]).

Definition stream (s : State) : ofstream := m_OutputStream (instr s).
Definition count (s : State) : Z := m_ProfileCount (instr s).

(** The content of the file at [p]; a missing file reads as empty. *)
Definition content (s : State) (p : string) : string :=
  default EmptyString (files s !! p).

(** ** The output stream *)

(** [ofstream::open(path, out | trunc)].  [basic_filebuf::open] fails when
    the buffer already has a file open, and when the file cannot be opened;
    the stream then sets [failbit].  On success the file is created or
    truncated and the state bits are cleared. *)
Definition os_open (path : string) (s : State) : State :=
  match os_file (stream s) with
  | Some p => set_stream (mkOfstream (Some p) false) s
  | None =>
      if decide (path ∈ unwritable s)
      then set_stream (mkOfstream None false) s
      else set_files (<[path := EmptyString]> (files s))
             (set_stream (mkOfstream (Some path) true) s)
  end.

(** [m_OutputStream << data].  A stream that is not [good()] writes nothing;
    inserting characters while no file is open fails and sets [badbit]. *)
Definition os_write (data : string) (s : State) : State :=
  if os_good (stream s) then
    match os_file (stream s) with
    | Some p => set_files (<[p := content s p +:+ data]> (files s)) s
    | None =>
        match data with
        | EmptyString => s
        | _ => set_stream (mkOfstream None false) s
        end
    end
  else s.

(** [flush()]: the model writes through, so nothing is pending. *)
Definition os_flush (s : State) : State := s.

(** [ofstream::close()]: closing with no file open sets [failbit]; the state
    bits are not cleared. *)
Definition os_close (s : State) : State :=
  match os_file (stream s) with
  | Some _ => set_stream (mkOfstream None (os_good (stream s))) s
  | None => set_stream (mkOfstream None false) s
  end.

(** ** Instrumentor *)

Definition header_text : string :=
  "{" +:+ str1 dq +:+ "otherData" +:+ str1 dq +:+ ": {}," +:+
  str1 dq +:+ "traceEvents" +:+ str1 dq +:+ ":[".

Definition footer_text : string := "]}".

Definition WriteHeader (s : State) : State := os_flush (os_write header_text s).
Definition WriteFooter (s : State) : State := os_flush (os_write footer_text s).

Definition BeginSession (name filepath : string) (s : State) : State :=
  let s := os_open filepath s in
  let s := WriteHeader s in
  let s := set_session (Some (mkSession name)) s in
  cout ("Session started: " +:+ name) s.

Definition EndSession (s : State) : State :=
  let s := WriteFooter s in
  let s := os_close s in
  let s := set_session None s in
  let s := set_count 0 s in
  cout "Session ended" s.

(** [std::replace] over the whole name: every occurrence of [old] becomes
    [new], every other character stays. *)
Fixpoint replace (old new : ascii) (s : string) : string :=
  match s with
  | EmptyString => EmptyString
  | String c s' => String (if Ascii.eqb c old then new else c) (replace old new s')
  end.

Definition escaped (name : string) : string := replace dq apostrophe name.

(** The insertions of [WriteProfile] after the separator, one list element
    per [<<]. *)
Definition profile_chunks (result : ProfileResult) : list string :=
  [ "{";
    str1 dq +:+ "cat" +:+ str1 dq +:+ ":" +:+ str1 dq +:+ "function" +:+ str1 dq +:+ ",";
    str1 dq +:+ "dur" +:+ str1 dq +:+ ":"; show_int (End result - Start result); ",";
    str1 dq +:+ "name" +:+ str1 dq +:+ ":" +:+ str1 dq; escaped (Name result); str1 dq +:+ ",";
    str1 dq +:+ "ph" +:+ str1 dq +:+ ":" +:+ str1 dq +:+ "X" +:+ str1 dq +:+ ",";
    str1 dq +:+ "pid" +:+ str1 dq +:+ ":0,";
    str1 dq +:+ "tid" +:+ str1 dq +:+ ":"; show_int (ThreadID result); ",";
    str1 dq +:+ "ts" +:+ str1 dq +:+ ":"; show_int (Start result);
    "}" ].

Definition write_all (chunks : list string) (s : State) : State :=
  foldl (fun s c => os_write c s) s chunks.

(** [m_ProfileCount++ > 0]: the value before the increment is compared.
    Incrementing [INT_MAX] overflows. *)
Definition count_post_incr (s : State) : option (bool * State) :=
  if count s <? INT_MAX
  then Some (0 <? count s, set_count (count s + 1) s)
  else None.

Definition WriteProfile (result : ProfileResult) (s : State) : option State :=
  match count_post_incr s with
  | None => None
  | Some (more, s) =>
      let s := if more then os_write "," s else s in
      if in_llong (End result - Start result) then
        let s := write_all (profile_chunks result) s in
        let s := os_flush s in
        Some (cout ("Profile written for: " +:+ escaped (Name result)) s)
      else None
  end.

(** ** InstrumentationTimer

    The clock reading and the hash of the thread id are inputs of the
    model: [now] is the reading of [high_resolution_clock] in microseconds,
    [tid_hash] the value of [std::hash<std::thread::id>]. *)
Record InstrumentationTimer := mkTimer {
  m_Name : string;
  m_StartTimepoint : Z;
  m_Stopped : bool
}.

Definition Timer_ctor (name : string) (now : Z) (s : State)
  : InstrumentationTimer * State :=
  (mkTimer name now false, cout ("Timer started for: " +:+ name) s).

Definition Stop (now tid_hash : Z) (t : InstrumentationTimer) (s : State)
  : option (InstrumentationTimer * State) :=
  let start := m_StartTimepoint t in
  let end_ := now in
  let threadID := to_uint32 tid_hash in
  match WriteProfile (mkProfileResult (m_Name t) start end_ threadID) s with
  | None => None
  | Some s =>
      Some (mkTimer (m_Name t) (m_StartTimepoint t) true,
            cout ("Timer stopped for: " +:+ m_Name t) s)
  end.

(** [~InstrumentationTimer()]. *)
Definition Timer_dtor (now tid_hash : Z) (t : InstrumentationTimer) (s : State)
  : option State :=
  if negb (m_Stopped t) then
    match Stop now tid_hash t s with
    | None => None
    | Some (_, s) => Some s
    end
  else Some s.

#[local] Set Warnings "-register-all".

(** ** JSON text

    A recogniser for the JSON grammar (RFC 8259) over bytes, used to state
    that a trace file parses.  String contents are checked and kept as
    written (an escape sequence stays an escape sequence); the encoding of
    bytes above 127 is not inspected.  The recursion is bounded by fuel, and
    running out of fuel is told apart from a syntax error. *)
Module Json.

Inductive value :=
| Null
| Bool (b : bool)
| Num (i : Z) (frac : option Decimal.uint) (exp : option Decimal.int)
| Str (s : string)
| Arr (l : list value)
| Obj (l : list (string * value)).

Inductive res (A : Type) :=
| Ok (a : A) (rest : string)
| Bad
| NoFuel.
Arguments Ok {A} a rest.
Arguments Bad {A}.
Arguments NoFuel {A}.

Definition bind {A B} (r : res A) (k : A -> string -> res B) : res B :=
  match r with
  | Ok a rest => k a rest
  | Bad => Bad
  | NoFuel => NoFuel
  end.

Definition of_option {A} (o : option (A * string)) : res A :=
  match o with
  | Some (a, rest) => Ok a rest
  | None => Bad
  end.

Definition is_ws (c : ascii) : bool :=
  Ascii.eqb c " " || Ascii.eqb c "009" || Ascii.eqb c "010" || Ascii.eqb c "013".

Fixpoint skip_ws (s : string) : string :=
  match s with
  | String c s' => if is_ws c then skip_ws s' else s
  | EmptyString => s
  end.

Definition is_hex (c : ascii) : bool :=
  let n := N_of_ascii c in
  ((48 <=? n) && (n <=? 57) || (65 <=? n) && (n <=? 70) || (97 <=? n) && (n <=? 102))%N.

Definition is_control (c : ascii) : bool := (N_of_ascii c <? 32)%N.

Definition is_escape (c : ascii) : bool :=
  Ascii.eqb c dq || Ascii.eqb c bslash || Ascii.eqb c "/" || Ascii.eqb c "b" ||
  Ascii.eqb c "f" || Ascii.eqb c "n" || Ascii.eqb c "r" || Ascii.eqb c "t".

Definition keep (c : ascii) (o : option (string * string)) : option (string * string) :=
  match o with
  | Some (body, rest) => Some (String c body, rest)
  | None => None
  end.

(** The characters of a string after its opening quote, up to the closing
    quote: the body and what follows the closing quote. *)
Fixpoint scan_string (s : string) : option (string * string) :=
  match s with
  | EmptyString => None
  | String c s1 =>
      if Ascii.eqb c dq then Some (EmptyString, s1)
      else if Ascii.eqb c bslash then
        match s1 with
        | EmptyString => None
        | String e s2 =>
            if is_escape e then keep c (keep e (scan_string s2))
            else if Ascii.eqb e "u" then
              match s2 with
              | String h1 (String h2 (String h3 (String h4 s3))) =>
                  if is_hex h1 && is_hex h2 && is_hex h3 && is_hex h4
                  then keep c (keep e (keep h1 (keep h2 (keep h3 (keep h4 (scan_string s3))))))
                  else None
              | _ => None
              end
            else None
        end
      else if is_control c then None
      else keep c (scan_string s1)
  end.

Definition digit_of (c : ascii) : option (Decimal.uint -> Decimal.uint) :=
  match c with
  | "0" => Some Decimal.D0 | "1" => Some Decimal.D1 | "2" => Some Decimal.D2
  | "3" => Some Decimal.D3 | "4" => Some Decimal.D4 | "5" => Some Decimal.D5
  | "6" => Some Decimal.D6 | "7" => Some Decimal.D7 | "8" => Some Decimal.D8
  | "9" => Some Decimal.D9 | _ => None
  end%char.

(** The longest prefix of decimal digits. *)
Fixpoint scan_digits (s : string) : Decimal.uint * string :=
  match s with
  | EmptyString => (Decimal.Nil, s)
  | String c s' =>
      match digit_of c with
      | Some d => let (u, rest) := scan_digits s' in (d u, rest)
      | None => (Decimal.Nil, s)
      end
  end.

(** The integer part of a number: one digit at least, no leading zero. *)
Definition int_part_ok (u : Decimal.uint) : bool :=
  match u with
  | Decimal.Nil => false
  | Decimal.D0 Decimal.Nil => true
  | Decimal.D0 _ => false
  | _ => true
  end.

Definition nonempty (u : Decimal.uint) : bool :=
  match u with Decimal.Nil => false | _ => true end.

Definition scan_frac (s : string) : option (option Decimal.uint * string) :=
  match s with
  | String c s' =>
      if Ascii.eqb c "." then
        let (u, rest) := scan_digits s' in
        if nonempty u then Some (Some u, rest) else None
      else Some (None, s)
  | EmptyString => Some (None, s)
  end.

Definition scan_exp (s : string) : option (option Decimal.int * string) :=
  match s with
  | String c s' =>
      if Ascii.eqb c "e" || Ascii.eqb c "E" then
        let '(neg, s1) :=
          match s' with
          | String sg r =>
              if Ascii.eqb sg "-" then (true, r)
              else if Ascii.eqb sg "+" then (false, r) else (false, s')
          | EmptyString => (false, s')
          end in
        let (u, rest) := scan_digits s1 in
        if nonempty u
        then Some (Some (if neg then Decimal.Neg u else Decimal.Pos u), rest)
        else None
      else Some (None, s)
  | EmptyString => Some (None, s)
  end.

Definition scan_number (s : string) : option (value * string) :=
  let '(neg, s1) :=
    match s with
    | String c r => if Ascii.eqb c "-" then (true, r) else (false, s)
    | EmptyString => (false, s)
    end in
  let (u, s2) := scan_digits s1 in
  if int_part_ok u then
    match scan_frac s2 with
    | Some (f, s3) =>
        match scan_exp s3 with
        | Some (e, s4) =>
            Some (Num (Z.of_int (if neg then Decimal.Neg u else Decimal.Pos u)) f e, s4)
        | None => None
        end
    | None => None
    end
  else None.

Fixpoint strip_prefix (p s : string) : option string :=
  match p with
  | EmptyString => Some s
  | String a p' =>
      match s with
      | String b s' => if Ascii.eqb a b then strip_prefix p' s' else None
      | EmptyString => None
      end
  end.

Definition literal (p : string) (v : value) (s : string) : res value :=
  match strip_prefix p s with
  | Some rest => Ok v rest
  | None => Bad
  end.

(** One level of each of the three mutually recursive parsers, over the
    parsers for the level below. *)
Definition value_step (members : string -> res (list (string * value)))
    (elements : string -> res (list value)) (s : string) : res value :=
  match skip_ws s with
  | EmptyString => Bad
  | String c r =>
      if Ascii.eqb c "{" then
        match skip_ws r with
        | EmptyString => Bad
        | String c' r' =>
            if Ascii.eqb c' "}" then Ok (Obj []) r'
            else bind (members r) (fun l rest => Ok (Obj l) rest)
        end
      else if Ascii.eqb c "[" then
        match skip_ws r with
        | EmptyString => Bad
        | String c' r' =>
            if Ascii.eqb c' "]" then Ok (Arr []) r'
            else bind (elements r) (fun l rest => Ok (Arr l) rest)
        end
      else if Ascii.eqb c dq then
        bind (of_option (scan_string r)) (fun b rest => Ok (Str b) rest)
      else if Ascii.eqb c "t" then literal "rue" (Bool true) r
      else if Ascii.eqb c "f" then literal "alse" (Bool false) r
      else if Ascii.eqb c "n" then literal "ull" Null r
      else of_option (scan_number (String c r))
  end.

Definition elements_step (value_ : string -> res value)
    (elements : string -> res (list value)) (s : string) : res (list value) :=
  bind (value_ s) (fun v r =>
    match skip_ws r with
    | EmptyString => Bad
    | String c r' =>
        if Ascii.eqb c "," then
          bind (elements r') (fun l rest => Ok (v :: l) rest)
        else if Ascii.eqb c "]" then Ok [v] r'
        else Bad
    end).

Definition members_step (value_ : string -> res value)
    (members : string -> res (list (string * value))) (s : string)
  : res (list (string * value)) :=
  match skip_ws s with
  | EmptyString => Bad
  | String c r =>
      if Ascii.eqb c dq then
        bind (of_option (scan_string r)) (fun k r1 =>
          match skip_ws r1 with
          | EmptyString => Bad
          | String c1 r2 =>
              if Ascii.eqb c1 ":" then
                bind (value_ r2) (fun v r3 =>
                  match skip_ws r3 with
                  | EmptyString => Bad
                  | String c3 r4 =>
                      if Ascii.eqb c3 "," then
                        bind (members r4) (fun l rest => Ok ((k, v) :: l) rest)
                      else if Ascii.eqb c3 "}" then Ok [(k, v)] r4
                      else Bad
                  end)
              else Bad
          end)
      else Bad
  end.

Fixpoint parse_value (fuel : nat) (s : string) : res value :=
  match fuel with
  | O => NoFuel
  | S f => value_step (parse_members f) (parse_elements f) s
  end
with parse_elements (fuel : nat) (s : string) : res (list value) :=
  match fuel with
  | O => NoFuel
  | S f => elements_step (parse_value f) (parse_elements f) s
  end
with parse_members (fuel : nat) (s : string) : res (list (string * value)) :=
  match fuel with
  | O => NoFuel
  | S f => members_step (parse_value f) (parse_members f) s
  end.

(** A whole document: one value, then only white space. *)
Definition parse_doc (fuel : nat) (s : string) : res value :=
  bind (parse_value fuel s) (fun v rest =>
    match skip_ws rest with
    | EmptyString => Ok v EmptyString
    | _ => Bad
    end).

(** [s] is a JSON text, and [v] is the value it denotes. *)
Definition parses_to (s : string) (v : value) : Prop :=
  exists fuel, parse_doc fuel s = Ok v EmptyString.

Definition valid (s : string) : Prop := exists v, parses_to s v.

End Json.

(** ** The trace file, as the format describes it *)

Definition cat (l : list string) : string := foldr String.append EmptyString l.

(** One serialized record: the insertions of [WriteProfile] put together. *)
Definition record_text (r : ProfileResult) : string := cat (profile_chunks r).

(** The separator a call emits, from the counter value it finds. *)
Definition separator (n : Z) : string := if 0 <? n then "," else EmptyString.

(** Header, the records separated by commas, footer. *)
Definition trace_text (rs : list ProfileResult) : string :=
  header_text +:+ String.concat "," (map record_text rs) +:+ footer_text.

Definition jint (z : Z) : Json.value := Json.Num z None None.

(** The seven fields of a record, in the order of the format. *)
Definition record_json (r : ProfileResult) : Json.value :=
  Json.Obj [ ("cat", Json.Str "function");
             ("dur", jint (End r - Start r));
             ("name", Json.Str (escaped (Name r)));
             ("ph", Json.Str "X");
             ("pid", jint 0);
             ("tid", jint (ThreadID r));
             ("ts", jint (Start r)) ].

Definition trace_json (rs : list ProfileResult) : Json.value :=
  Json.Obj [ ("otherData", Json.Obj []);
             ("traceEvents", Json.Arr (map record_json rs)) ].

(** A name that needs no escaping inside a JSON string once its quotes are
    replaced: no backslash and no control character. *)
Fixpoint plain (name : string) : bool :=
  match name with
  | EmptyString => true
  | String c s => negb (Ascii.eqb c bslash) && negb (Json.is_control c) && plain s
  end.

Fixpoint has_char (c : ascii) (s : string) : bool :=
  match s with
  | EmptyString => false
  | String a s' => Ascii.eqb a c || has_char c s'
  end.

(** ** Runs *)

(** [n] calls of [WriteProfile] in a row. *)
Fixpoint write_records (rs : list ProfileResult) (s : State) : option State :=
  match rs with
  | [] => Some s
  | r :: rs' =>
      match WriteProfile r s with
      | Some s' => write_records rs' s'
      | None => None
      end
  end.

(** The calls a program makes on the instrumentation: session begin and
    end, [profile_scope(name)] constructing the timer [id], an explicit
    [Stop()] on it, and the scope exit that destroys it.  [now] and
    [tid_hash] are the clock reading and the thread hash seen by the call. *)
Inductive call :=
| CBegin (name filepath : string)
| CEnd
| CTimer (id : nat) (name : string) (now : Z)
| CStop (id : nat) (now tid_hash : Z)
| CExit (id : nat) (now tid_hash : Z).

(** The live timer objects and the singleton. *)
Record Machine := mkMachine {
  timers : gmap nat InstrumentationTimer;
  st : State
}.

(** One call.  [None]: the call is not one a program can make (a timer that
    does not exist, an identifier declared twice) or the execution is
    undefined. *)
Definition step (c : call) (m : Machine) : option Machine :=
  match c with
  | CBegin name filepath => Some (mkMachine (timers m) (BeginSession name filepath (st m)))
  | CEnd => Some (mkMachine (timers m) (EndSession (st m)))
  | CTimer id name now =>
      match timers m !! id with
      | Some _ => None
      | None =>
          let (t, s) := Timer_ctor name now (st m) in
          Some (mkMachine (<[id := t]> (timers m)) s)
      end
  | CStop id now tid_hash =>
      match timers m !! id with
      | Some t =>
          match Stop now tid_hash t (st m) with
          | Some (t', s) => Some (mkMachine (<[id := t']> (timers m)) s)
          | None => None
          end
      | None => None
      end
  | CExit id now tid_hash =>
      match timers m !! id with
      | Some t =>
          match Timer_dtor now tid_hash t (st m) with
          | Some s => Some (mkMachine (delete id (timers m)) s)
          | None => None
          end
      | None => None
      end
  end.

Fixpoint run (cs : list call) (m : Machine) : option Machine :=
  match cs with
  | [] => Some m
  | c :: cs' =>
      match step c m with
      | Some m' => run cs' m'
      | None => None
      end
  end.

(** ** States and results, named *)

Definition open_at (p : string) (s : State) : Prop :=
  stream s = mkOfstream (Some p) true.

Definition closed (s : State) : Prop := os_file (stream s) = None.

Definition session (s : State) : option InstrumentationSession :=
  m_CurrentSession (instr s).

Definition same_elsewhere (p : string) (s s' : State) : Prop :=
  forall q, q <> p -> files s' !! q = files s !! q.

Definition representable (r : ProfileResult) : Prop :=
  in_llong (End r - Start r) = true.

Definition plain_name (r : ProfileResult) : Prop := plain (Name r) = true.

Definition running (t : InstrumentationTimer) : Prop := m_Stopped t = false.

Definition result_of (t : InstrumentationTimer) (now tid_hash : Z) : ProfileResult :=
  mkProfileResult (m_Name t) (m_StartTimepoint t) now (to_uint32 tid_hash).

Definition stopped (t : InstrumentationTimer) : InstrumentationTimer :=
  mkTimer (m_Name t) (m_StartTimepoint t) true.

(** ** What a series of calls appends *)

(** What a series of calls appends when the first of them finds the
    counter at [n]. *)
Fixpoint emitted (n : Z) (rs : list ProfileResult) : string :=
  match rs with
  | [] => EmptyString
  | r :: rs' => separator n +:+ record_text r +:+ emitted (n + 1) rs'
  end.

Definition records_length (rs : list ProfileResult) : nat :=
  sum_list (map (fun r => String.length (record_text r)) rs).

Definition substitute (c : ascii) : ascii :=
  if Ascii.eqb c dq then apostrophe else c.

(** ** Bodies of timers *)

(** The records a body of timer calls leaves, in the order of the scope
    exits: a body is made of timers that are constructed, not stopped by
    hand, and all destroyed by its end.  [live] holds the timers in scope. *)
Fixpoint completions (live : gmap nat InstrumentationTimer) (cs : list call)
  : option (list ProfileResult) :=
  match cs with
  | [] => if decide (live = ∅) then Some [] else None
  | CTimer id name now :: cs' =>
      match live !! id with
      | None => completions (<[id := mkTimer name now false]> live) cs'
      | Some _ => None
      end
  | CExit id now tid_hash :: cs' =>
      match live !! id with
      | Some t =>
          option_map (cons (result_of t now tid_hash)) (completions (delete id live) cs')
      | None => None
      end
  | _ => None
  end.

(** The number of timers a body constructs. *)
Fixpoint timers_constructed (cs : list call) : nat :=
  match cs with
  | [] => 0
  | CTimer _ _ _ :: cs' => S (timers_constructed cs')
  | _ :: cs' => timers_constructed cs'
  end.

(** One completed timer after the other, none inside another: each element
    gives the name, the clock at construction, the clock at scope exit and
    the thread hash. *)
Fixpoint scopes (l : list (string * Z * Z * Z)) : list call :=
  match l with
  | [] => []
  | (name, start, stop, tid_hash) :: l' =>
      CTimer 0 name start :: CExit 0 stop tid_hash :: scopes l'
  end.

Definition scope_record (x : string * Z * Z * Z) : ProfileResult :=
  let '(name, start, stop, tid_hash) := x in
  mkProfileResult name start stop (to_uint32 tid_hash).

(** ** Calls that overlap

    [WriteProfile] takes no lock.  A call in progress on a thread is
    modelled by what it still has to do: evaluate [m_ProfileCount++ > 0],
    then make its insertions one by one, then flush and report.  A schedule
    says which of two threads takes the next step. *)
Inductive thread :=
| Entering (r : ProfileResult)
| Writing (r : ProfileResult) (pending : list string)
| Finished.

Definition thread_step (t : thread) (s : State) : option (thread * State) :=
  match t with
  | Entering r =>
      match count_post_incr s with
      | None => None
      | Some (more, s') =>
          if in_llong (End r - Start r)
          then Some (Writing r ((if more then [","] else []) ++ profile_chunks r), s')
          else None
      end
  | Writing r (c :: pending) => Some (Writing r pending, os_write c s)
  | Writing r [] =>
      Some (Finished, cout ("Profile written for: " +:+ escaped (Name r)) (os_flush s))
  | Finished => Some (Finished, s)
  end.

(** [n] steps of one thread on its own. *)
Fixpoint run_thread (n : nat) (t : thread) (s : State) : option (thread * State) :=
  match n with
  | O => Some (t, s)
  | S n' =>
      match thread_step t s with
      | Some (t', s') => run_thread n' t' s'
      | None => None
      end
  end.

(** Two threads under a schedule: [false] steps the first, [true] the
    second. *)
Fixpoint interleave (sched : list bool) (a b : thread) (s : State)
  : option (thread * thread * State) :=
  match sched with
  | [] => Some (a, b, s)
  | false :: sched' =>
      match thread_step a s with
      | Some (a', s') => interleave sched' a' b s'
      | None => None
      end
  | true :: sched' =>
      match thread_step b s with
      | Some (b', s') => interleave sched' a b' s'
      | None => None
      end
  end.

(** The two threads take turns. *)
Fixpoint alternate (n : nat) : list bool :=
  match n with
  | O => []
  | S n' => false :: true :: alternate n'
  end.

(** One thread to its end, then the other. *)
Definition serial : list bool := replicate 20 false ++ replicate 20 true.

(** ** Runs that differ in the session name *)

(** What a state holds besides the session name and the console: the files,
    the stream, the counter. *)
Definition same_output (s1 s2 : State) : Prop :=
  files s1 = files s2 /\ stream s1 = stream s2 /\ count s1 = count s2 /\
  unwritable s1 = unwritable s2.

Definition opt_rel {A} (R : A -> A -> Prop) (o1 o2 : option A) : Prop :=
  match o1, o2 with
  | Some a1, Some a2 => R a1 a2
  | None, None => True
  | _, _ => False
  end.

(** Two calls that differ at most in the name given to [BeginSession]. *)
Inductive same_call : call -> call -> Prop :=
| same_begin name1 name2 filepath :
    same_call (CBegin name1 filepath) (CBegin name2 filepath)
| same_refl c : same_call c c.

Definition same_machine (m1 m2 : Machine) : Prop :=
  timers m1 = timers m2 /\ same_output (st m1) (st m2).

Ltac same_unpack H :=
  let Hf := fresh "Hf" in let Hs := fresh "Hs" in
  let Hc := fresh "Hc" in let Hu := fresh "Hu" in
  destruct H as (Hf & Hs & Hc & Hu).

(** ** Texts for the recogniser *)

(** [q] agrees with [p] wherever [p] reaches a verdict. *)
Definition extends {A} (p q : string -> Json.res A) : Prop :=
  forall s r, p s = r -> r <> Json.NoFuel -> q s = r.

(** What may follow a number inside an object: a comma or the closing
    brace. *)
Definition ends_number (rest : string) : bool :=
  match rest with
  | String c _ => Ascii.eqb c "," || Ascii.eqb c "}"
  | EmptyString => false
  end.

(** Texts in continuation form: what comes after is an argument. *)
Definition quoted (body rest : string) : string :=
  String dq (body +:+ String dq rest).

Definition member (key : string) (vtext : string -> string) (rest : string) : string :=
  quoted key (String ":" (vtext rest)).

Definition record_then (r : ProfileResult) (rest : string) : string :=
  String "{"
    (member "cat" (quoted "function") (String ","
    (member "dur" (String.append (show_int (End r - Start r))) (String ","
    (member "name" (quoted (escaped (Name r))) (String ","
    (member "ph" (quoted "X") (String ","
    (member "pid" (String.append "0") (String ","
    (member "tid" (String.append (show_int (ThreadID r))) (String ","
    (member "ts" (String.append (show_int (Start r))) (String "}" rest)))))))))))))).

Fixpoint records_then (r : ProfileResult) (rs : list ProfileResult) (rest : string)
  : string :=
  match rs with
  | [] => record_then r rest
  | r' :: rs' => record_then r (String "," (records_then r' rs' rest))
  end.

(** ** Sample sessions *)

Definition session_P : State := BeginSession "P" "r.json" (initial ∅ ∅).
Definition timer_f : InstrumentationTimer := mkTimer "f" 100 false.

(** A session left open, with one record written. *)
Definition session_A_one_record : option State :=
  WriteProfile (mkProfileResult "f" 100 150 7)
    (BeginSession "A" "a.json" (initial ∅ ∅)).

Definition two_records_session : State :=
  match write_records [mkProfileResult "f1" 100 150 7; mkProfileResult "f2" 150 210 7]
          session_P with
  | Some s => s
  | None => session_P
  end.

(** The calls of [main]: the timer of [main] around those of the two
    functions it calls. *)
Definition main_body : list call :=
  [ CTimer 0 "int main()" 10;
    CTimer 1 "void function1()" 20; CExit 1 520 7;
    CTimer 2 "void function2()" 530; CExit 2 2530 7;
    CExit 0 3540 7 ].

Definition main_records : list ProfileResult :=
  [ mkProfileResult "void function1()" 20 520 7;
    mkProfileResult "void function2()" 530 2530 7;
    mkProfileResult "int main()" 10 3540 7 ].



Definition record_f1 : ProfileResult := mkProfileResult "f1" 100 150 7.
Definition record_f2 : ProfileResult := mkProfileResult "f2" 150 210 8.

(** ** The macros and the program

    [begin_session(name)] calls [BeginSession] with the default file path,
    [profile_scope(name)] declares a timer in the current block, and
    [profile_Function()] is [profile_scope] on the name the compiler gives
    the enclosing function ([__PRETTY_FUNCTION__] or [__FUNCSIG__]). *)
Definition default_filepath : string := "results.json".

Definition begin_session (session_name : string) : call :=
  CBegin session_name default_filepath.

Definition end_session : call := CEnd.

Definition profile_scope (id : nat) (name : string) (now : Z) : call :=
  CTimer id name now.

(** What one execution of [main] reads from its environment: the names the
    compiler gives the three functions, the clock at each construction and
    at each scope exit, and the hash of the thread. *)
Record Readings := mkReadings {
  fn_main : string;
  fn_function1 : string;
  fn_function2 : string;
  main_entered : Z;
  function1_entered : Z;
  function1_left : Z;
  function2_entered : Z;
  function2_left : Z;
  main_left : Z;
  thread_hash : Z
}.

(** [main]: the session around a block that holds the timer of [main] and
    the calls of [function1] and [function2], each with its own timer. *)
Definition main_calls (e : Readings) : list call :=
  [ begin_session "Profile";
    profile_scope 0 (fn_main e) (main_entered e);
    profile_scope 1 (fn_function1 e) (function1_entered e);
    CExit 1 (function1_left e) (thread_hash e);
    profile_scope 2 (fn_function2 e) (function2_entered e);
    CExit 2 (function2_left e) (thread_hash e);
    CExit 0 (main_left e) (thread_hash e);
    end_session ].

(** [main] as first written, without the inner block: the timer of [main]
    is destroyed when [main] returns, after [end_session()]. *)
Definition main_without_block_calls (e : Readings) : list call :=
  [ begin_session "Profile";
    profile_scope 0 (fn_main e) (main_entered e);
    profile_scope 1 (fn_function1 e) (function1_entered e);
    CExit 1 (function1_left e) (thread_hash e);
    profile_scope 2 (fn_function2 e) (function2_entered e);
    CExit 2 (function2_left e) (thread_hash e);
    end_session;
    CExit 0 (main_left e) (thread_hash e) ].

Definition record_function1 (e : Readings) : ProfileResult :=
  mkProfileResult (fn_function1 e) (function1_entered e) (function1_left e)
    (to_uint32 (thread_hash e)).

Definition record_function2 (e : Readings) : ProfileResult :=
  mkProfileResult (fn_function2 e) (function2_entered e) (function2_left e)
    (to_uint32 (thread_hash e)).

Definition record_main (e : Readings) : ProfileResult :=
  mkProfileResult (fn_main e) (main_entered e) (main_left e)
    (to_uint32 (thread_hash e)).

(** ** Timer calls in general *)

Definition with_record (r : ProfileResult)
    (o : option (list ProfileResult * gmap nat InstrumentationTimer))
  : option (list ProfileResult * gmap nat InstrumentationTimer) :=
  match o with
  | Some (rs, live) => Some (r :: rs, live)
  | None => None
  end.

(** The calls of [WriteProfile] a series of timer calls makes, in order,
    and the timers still alive after it.  An explicit stop makes one
    whether or not the timer was stopped before; a scope exit makes one
    when the timer is still running.  [None]: a session call, or a call no
    program can make. *)
Fixpoint recorded (live : gmap nat InstrumentationTimer) (cs : list call)
  : option (list ProfileResult * gmap nat InstrumentationTimer) :=
  match cs with
  | [] => Some ([], live)
  | CTimer id name now :: cs' =>
      match live !! id with
      | None => recorded (<[id := mkTimer name now false]> live) cs'
      | Some _ => None
      end
  | CStop id now tid_hash :: cs' =>
      match live !! id with
      | Some t =>
          with_record (result_of t now tid_hash) (recorded (<[id := stopped t]> live) cs')
      | None => None
      end
  | CExit id now tid_hash :: cs' =>
      match live !! id with
      | Some t =>
          if m_Stopped t then recorded (delete id live) cs'
          else with_record (result_of t now tid_hash) (recorded (delete id live) cs')
      | None => None
      end
  | _ => None
  end.

(** The lines a stop of [t] sends to [std::cout]. *)
Definition stop_lines (t : InstrumentationTimer) : list string :=
  [ "Profile written for: " +:+ escaped (m_Name t);
    "Timer stopped for: " +:+ m_Name t ].

(** The lines a series of calls sends to [std::cout]. *)
Fixpoint log (live : gmap nat InstrumentationTimer) (cs : list call) : list string :=
  match cs with
  | [] => []
  | CBegin name _ :: cs' => ("Session started: " +:+ name) :: log live cs'
  | CEnd :: cs' => "Session ended" :: log live cs'
  | CTimer id name now :: cs' =>
      ("Timer started for: " +:+ name) :: log (<[id := mkTimer name now false]> live) cs'
  | CStop id _ _ :: cs' =>
      match live !! id with
      | Some t => stop_lines t ++ log (<[id := stopped t]> live) cs'
      | None => []
      end
  | CExit id _ _ :: cs' =>
      match live !! id with
      | Some t =>
          (if m_Stopped t then [] else stop_lines t) ++ log (delete id live) cs'
      | None => []
      end
  end.

(** A stream that writes nothing: no file open, or not [good()]. *)
Definition dead (s : State) : Prop :=
  os_file (stream s) = None \/ os_good (stream s) = false.

Definition is_begin (c : call) : bool :=
  match c with
  | CBegin _ _ => true
  | _ => false
  end.

(** The paths given to [BeginSession] in a series of calls. *)
Fixpoint begin_paths (cs : list call) : list string :=
  match cs with
  | [] => []
  | CBegin _ filepath :: cs' => filepath :: begin_paths cs'
  | _ :: cs' => begin_paths cs'
  end.

(** The stream has no file open at [q]. *)
Definition away (q : string) (s : State) : Prop :=
  os_file (stream s) <> Some q.

(** A clock reading as [long long]: microseconds since the epoch of the
    clock, not negative. *)
Definition timestamp (z : Z) : Prop := 0 <= z <= LLONG_MAX.

(** The six timer calls between [begin_session] and [end_session]. *)
Definition main_block (e : Readings) : list call :=
  [ profile_scope 0 (fn_main e) (main_entered e);
    profile_scope 1 (fn_function1 e) (function1_entered e);
    CExit 1 (function1_left e) (thread_hash e);
    profile_scope 2 (fn_function2 e) (function2_entered e);
    CExit 2 (function2_left e) (thread_hash e);
    CExit 0 (main_left e) (thread_hash e) ].

Definition clock_readings (e : Readings) : list Z :=
  [ main_entered e; function1_entered e; function1_left e;
    function2_entered e; function2_left e; main_left e ].

Definition function_names (e : Readings) : list string :=
  [ fn_main e; fn_function1 e; fn_function2 e ].

(** The names GCC gives, and some readings. *)
Definition sample_readings : Readings :=
  mkReadings "int main()" "void function1()" "void function2()"
    10 20 520 530 2530 3540 7.

(** The singleton after a timer was stopped once the session had ended. *)
Definition after_late_stop : State :=
  match Stop 300 7 timer_f (EndSession two_records_session) with
  | Some (_, s) => s
  | None => EndSession two_records_session
  end.

(** The timer calls of [main] without the inner block, up to
    [end_session()]. *)
Definition main_block_open (e : Readings) : list call :=
  [ profile_scope 0 (fn_main e) (main_entered e);
    profile_scope 1 (fn_function1 e) (function1_entered e);
    CExit 1 (function1_left e) (thread_hash e);
    profile_scope 2 (fn_function2 e) (function2_entered e);
    CExit 2 (function2_left e) (thread_hash e) ].

Definition timer_main (e : Readings) : InstrumentationTimer :=
  mkTimer (fn_main e) (main_entered e) false.

(** A timer stopped by hand twice, then destroyed. *)
Definition stop_twice_calls : list call :=
  [ CTimer 0 "f" 100; CStop 0 150 7; CStop 0 160 7; CExit 0 170 7 ].

(** Timer calls and an [EndSession], no [BeginSession]. *)
Definition calls_without_begin : list call :=
  [ CTimer 0 "f" 100; CExit 0 150 7; CEnd; CTimer 1 "g" 200; CStop 1 250 7 ].

(** A state in which [locked.json] cannot be opened. *)
Definition locked_state : State := initial ∅ {["locked.json"]}.

(** * Properties *)

#[local] Arguments record_text : simpl never.
#[local] Arguments header_text : simpl never.
#[local] Arguments profile_chunks : simpl never.

(** ** Strings *)

Lemma append_nil_r (a : string) : a +:+ EmptyString = a.
Proof. induction a as [|c a IH]; simpl; [reflexivity | now rewrite IH]. Qed.

Lemma append_assoc (a b c : string) : (a +:+ b) +:+ c = a +:+ b +:+ c.
Proof. induction a as [|x a IH]; simpl; [reflexivity | now rewrite IH]. Qed.

Lemma cat_app (l1 l2 : list string) : cat (l1 ++ l2) = cat l1 +:+ cat l2.
Proof.
  induction l1 as [|x l1 IH]; simpl; [reflexivity |].
  fold (cat (l1 ++ l2)). fold (cat l1). now rewrite IH, append_assoc.
Qed.

(** ** The output stream *)

Lemma content_set_files fs s p x :
  content (set_files (<[p := x]> fs) s) p = x.
Proof. unfold content; simpl. now rewrite lookup_insert_eq. Qed.

Lemma files_set_files fs s : files (set_files fs s) = fs.
Proof. reflexivity. Qed.

Lemma files_cout l s : files (cout l s) = files s.
Proof. reflexivity. Qed.

Lemma os_write_open p d s :
  open_at p s ->
  os_write d s = set_files (<[p := content s p +:+ d]> (files s)) s.
Proof. unfold open_at, os_write. intros ->. reflexivity. Qed.

Lemma write_all_open p c chunks s :
  open_at p s ->
  write_all (c :: chunks) s
  = set_files (<[p := content s p +:+ cat (c :: chunks)]> (files s)) s.
Proof.
  revert c s. induction chunks as [|c' chunks IH]; intros c s Hop.
  - simpl. rewrite append_nil_r. now apply os_write_open.
  - change (write_all (c :: c' :: chunks) s)
      with (write_all (c' :: chunks) (os_write c s)).
    rewrite (os_write_open p c s Hop).
    rewrite IH by exact Hop.
    rewrite content_set_files. unfold set_files; simpl.
    rewrite insert_insert_eq.
    change (cat (c :: c' :: chunks)) with (c +:+ cat (c' :: chunks)).
    now rewrite append_assoc.
Qed.

(** A stream with no file open, or one that is not [good()], leaves every
    file as it is. *)
Lemma os_write_closed d s : closed s -> files (os_write d s) = files s.
Proof.
  unfold closed, os_write. intros H. rewrite H.
  destruct (os_good (stream s)); [destruct d |]; reflexivity.
Qed.

Lemma os_write_closed_closed d s : closed s -> closed (os_write d s).
Proof.
  unfold closed, os_write. intros H. rewrite H.
  destruct (os_good (stream s)); [destruct d |]; simpl; auto.
Qed.

Lemma os_write_count d s : count (os_write d s) = count s.
Proof.
  unfold os_write.
  destruct (os_good (stream s)); [destruct (os_file (stream s)); [|destruct d] |];
    reflexivity.
Qed.

Lemma os_write_unwritable d s : unwritable (os_write d s) = unwritable s.
Proof.
  unfold os_write.
  destruct (os_good (stream s)); [destruct (os_file (stream s)); [|destruct d] |];
    reflexivity.
Qed.

Lemma write_all_closed chunks s :
  closed s ->
  files (write_all chunks s) = files s /\ closed (write_all chunks s) /\
  count (write_all chunks s) = count s /\
  unwritable (write_all chunks s) = unwritable s.
Proof.
  revert s. induction chunks as [|c chunks IH]; intros s Hc; simpl.
  - auto.
  - destruct (IH (os_write c s) (os_write_closed_closed c s Hc)) as (Hf & Hcl & Hn & Hu).
    unfold write_all in *. rewrite Hf, Hn, Hu.
    rewrite os_write_closed, os_write_count, os_write_unwritable by exact Hc. auto.
Qed.

(** ** WriteProfile, one call *)

Lemma count_post_incr_ok s :
  count s < INT_MAX ->
  count_post_incr s = Some (0 <? count s, set_count (count s + 1) s).
Proof.
  intros H. unfold count_post_incr.
  now rewrite (proj2 (Z.ltb_lt _ _) H).
Qed.

(** On an open stream in good state a call appends its separator and its
    record to the open file, and changes no other file. *)
Lemma WriteProfile_open r s p :
  open_at p s ->
  count s < INT_MAX ->
  in_llong (End r - Start r) = true ->
  exists s',
    WriteProfile r s = Some s' /\
    open_at p s' /\
    count s' = count s + 1 /\
    files s' = <[p := content s p +:+ separator (count s) +:+ record_text r]> (files s) /\
    unwritable s' = unwritable s.
Proof.
  intros Hop Hlt Hll. unfold WriteProfile.
  rewrite (count_post_incr_ok s Hlt), Hll.
  eexists; split; [reflexivity |].
  assert (Hop1 : open_at p (set_count (count s + 1) s)) by exact Hop.
  unfold separator, os_flush.
  destruct (0 <? count s).
  - rewrite (os_write_open p _ _ Hop1).
    unfold profile_chunks.
    rewrite (write_all_open p) by exact Hop.
    rewrite content_set_files.
    split; [exact Hop | split; [reflexivity | split; [| reflexivity]]].
    rewrite files_cout, !files_set_files, insert_insert_eq.
    rewrite append_assoc. reflexivity.
  - unfold profile_chunks.
    rewrite (write_all_open p) by exact Hop1.
    split; [exact Hop | split; [reflexivity | split; reflexivity]].
Qed.

(** With no file open nothing reaches any file; the counter still moves. *)
Lemma WriteProfile_closed r s :
  closed s ->
  count s < INT_MAX ->
  in_llong (End r - Start r) = true ->
  exists s',
    WriteProfile r s = Some s' /\
    closed s' /\
    count s' = count s + 1 /\
    files s' = files s /\
    unwritable s' = unwritable s.
Proof.
  intros Hc Hlt Hll. unfold WriteProfile.
  rewrite (count_post_incr_ok s Hlt), Hll.
  eexists; split; [reflexivity |].
  assert (Hc1 : closed (set_count (count s + 1) s)) by exact Hc.
  unfold os_flush.
  set (s1 := if 0 <? count s then os_write "," (set_count (count s + 1) s)
             else set_count (count s + 1) s).
  assert (H1 : closed s1 /\ count s1 = count s + 1 /\ files s1 = files s /\
               unwritable s1 = unwritable s).
  { subst s1. destruct (0 <? count s).
    - rewrite os_write_count, os_write_unwritable, os_write_closed by exact Hc1.
      split; [now apply os_write_closed_closed | repeat split].
    - repeat split. exact Hc. }
  clearbody s1. destruct H1 as (Hcl1 & Hn1 & Hf1 & Hu1).
  destruct (write_all_closed (profile_chunks r) s1 Hcl1) as (Hf & Hcl & Hn & Hu).
  generalize dependent (write_all (profile_chunks r) s1). intros s2 Hf Hcl Hn Hu.
  split; [exact Hcl | split; [| split]].
  - change (count s2 = count s + 1). congruence.
  - change (files s2 = files s). congruence.
  - change (unwritable s2 = unwritable s). congruence.
Qed.

(** ** WriteProfile, several calls *)

Lemma emitted_cons n r rs :
  emitted n (r :: rs) = separator n +:+ record_text r +:+ emitted (n + 1) rs.
Proof. reflexivity. Qed.

Lemma content_insert p x s s' :
  files s' = <[p := x]> (files s) -> content s' p = x.
Proof. unfold content. intros ->. now rewrite lookup_insert_eq. Qed.

Lemma write_records_open rs : forall s p,
  open_at p s ->
  count s + Z.of_nat (length rs) <= INT_MAX ->
  Forall representable rs ->
  exists s',
    write_records rs s = Some s' /\
    open_at p s' /\
    count s' = count s + Z.of_nat (length rs) /\
    content s' p = content s p +:+ emitted (count s) rs /\
    same_elsewhere p s s' /\
    unwritable s' = unwritable s.
Proof.
  induction rs as [|r rs IH]; intros s p Hop Hn Hrep.
  - exists s. simpl. rewrite append_nil_r, Z.add_0_r.
    repeat split; auto.
  - inversion Hrep as [|? ? Hr Hrs]; subst.
    rewrite length_cons, Nat2Z.inj_succ in Hn.
    destruct (WriteProfile_open r s p Hop) as (s1 & Hw & Hop1 & Hc1 & Hf1 & Hu1);
      [lia | exact Hr |].
    destruct (IH s1 p Hop1) as (s2 & Hw2 & Hop2 & Hc2 & Hf2 & He2 & Hu2);
      [lia | exact Hrs |].
    exists s2. simpl write_records. rewrite Hw.
    split; [exact Hw2 | split; [exact Hop2 | split; [| split; [| split]]]].
    + rewrite Hc2, Hc1, length_cons, Nat2Z.inj_succ. lia.
    + rewrite Hf2, (content_insert _ _ _ _ Hf1), Hc1, emitted_cons.
      now rewrite !append_assoc.
    + intros q Hq. rewrite (He2 q Hq), Hf1. now apply lookup_insert_ne.
    + congruence.
Qed.

Lemma write_records_app rs1 rs2 s :
  write_records (rs1 ++ rs2) s
  = match write_records rs1 s with
    | Some s1 => write_records rs2 s1
    | None => None
    end.
Proof.
  revert s. induction rs1 as [|r rs1 IH]; intros s; simpl; [reflexivity |].
  destruct (WriteProfile r s); [apply IH | reflexivity].
Qed.

Lemma separator_pos n : 0 < n -> separator n = ",".
Proof. intros H. unfold separator. now rewrite (proj2 (Z.ltb_lt _ _) H). Qed.

(** After the first record every record is preceded by a comma. *)
Lemma emitted_pos n rs :
  0 < n -> emitted n rs = cat (map (fun r => "," +:+ record_text r) rs).
Proof.
  revert n. induction rs as [|r rs IH]; intros n Hn; [reflexivity |].
  rewrite emitted_cons, (separator_pos n Hn), (IH (n + 1)) by lia.
  rewrite map_cons. change (cat (?x :: ?l)) with (x +:+ cat l).
  now rewrite append_assoc.
Qed.

Lemma concat_comma x l :
  String.concat "," (x :: l) = x +:+ cat (map (fun y => "," +:+ y) l).
Proof.
  revert x. induction l as [|y l IH]; intros x.
  - simpl. now rewrite append_nil_r.
  - change (String.concat "," (x :: y :: l))
      with (x +:+ "," +:+ String.concat "," (y :: l)).
    rewrite IH. simpl map. simpl cat.
    fold (cat (map (fun y0 => "," +:+ y0) l)). reflexivity.
Qed.

(** Starting from a counter at zero the calls emit the records separated by
    commas. *)
Lemma emitted_zero rs :
  emitted 0 rs = String.concat "," (map record_text rs).
Proof.
  destruct rs as [|r rs]; [reflexivity |].
  rewrite map_cons, concat_comma, emitted_cons.
  rewrite emitted_pos by lia. unfold separator.
  change (0 <? 0) with false. change (EmptyString +:+ ?x) with x.
  now rewrite map_map.
Qed.

(** ** Sessions *)

Lemma BeginSession_closed name path s :
  closed s ->
  path ∉ unwritable s ->
  open_at path (BeginSession name path s) /\
  files (BeginSession name path s) = <[path := header_text]> (files s) /\
  count (BeginSession name path s) = count s /\
  session (BeginSession name path s) = Some (mkSession name) /\
  unwritable (BeginSession name path s) = unwritable s.
Proof.
  intros Hc Hw. unfold BeginSession, WriteHeader, os_flush, os_open.
  rewrite Hc. destruct (decide (path ∈ unwritable s)) as [Hin | _]; [contradiction |].
  rewrite (os_write_open path) by reflexivity.
  rewrite content_set_files.
  split; [reflexivity | split; [| repeat split]].
  rewrite files_cout. unfold set_session. rewrite !files_set_files.
  now rewrite insert_insert_eq.
Qed.

(** [open] on a stream that still has a file open fails: nothing is
    truncated, and the stream stops accepting output. *)
Lemma BeginSession_still_open name path p s :
  os_file (stream s) = Some p ->
  files (BeginSession name path s) = files s /\
  stream (BeginSession name path s) = mkOfstream (Some p) false /\
  count (BeginSession name path s) = count s.
Proof.
  intros Ho. unfold BeginSession, WriteHeader, os_flush, os_open.
  rewrite Ho. repeat split.
Qed.

Lemma BeginSession_unwritable name path s :
  closed s ->
  path ∈ unwritable s ->
  files (BeginSession name path s) = files s /\
  stream (BeginSession name path s) = mkOfstream None false /\
  count (BeginSession name path s) = count s.
Proof.
  intros Hc Hw. unfold BeginSession, WriteHeader, os_flush, os_open.
  rewrite Hc. destruct (decide (path ∈ unwritable s)) as [_ | Hn]; [| contradiction].
  repeat split.
Qed.

Lemma EndSession_closes s :
  closed (EndSession s) /\ count (EndSession s) = 0 /\
  session (EndSession s) = None /\
  unwritable (EndSession s) = unwritable s.
Proof.
  unfold EndSession, closed, os_close.
  destruct (os_file (stream (WriteFooter s))) eqn:E; repeat split;
    unfold WriteFooter, os_flush; apply os_write_unwritable.
Qed.

Lemma EndSession_open p s :
  open_at p s ->
  files (EndSession s) = <[p := content s p +:+ footer_text]> (files s).
Proof.
  intros Hop. unfold EndSession, WriteFooter, os_flush.
  rewrite (os_write_open p _ s Hop).
  unfold os_close. destruct (os_file _); reflexivity.
Qed.

(** With no file open [EndSession] leaves the files alone. *)
Lemma EndSession_closed s : closed s -> files (EndSession s) = files s.
Proof.
  intros Hc. unfold EndSession, WriteFooter, os_flush.
  pose proof (os_write_closed footer_text s Hc) as Hf.
  generalize dependent (os_write footer_text s). intros s1 Hf.
  unfold os_close. destruct (os_file (stream s1)); exact Hf.
Qed.

(** ** Timers *)

Lemma Stop_WriteProfile now h t s :
  Stop now h t s
  = match WriteProfile (result_of t now h) s with
    | Some s' => Some (stopped t, cout ("Timer stopped for: " +:+ m_Name t) s')
    | None => None
    end.
Proof. reflexivity. Qed.

Lemma Timer_dtor_stopped now h t s :
  m_Stopped t = true -> Timer_dtor now h t s = Some s.
Proof. unfold Timer_dtor. now intros ->. Qed.

Lemma Timer_dtor_running now h t s :
  m_Stopped t = false ->
  Timer_dtor now h t s
  = match Stop now h t s with Some (_, s') => Some s' | None => None end.
Proof. unfold Timer_dtor. now intros ->. Qed.

Lemma Stop_open now h t s p :
  open_at p s ->
  count s < INT_MAX ->
  representable (result_of t now h) ->
  exists s',
    Stop now h t s = Some (stopped t, s') /\
    open_at p s' /\
    count s' = count s + 1 /\
    files s' = <[p := content s p +:+ separator (count s) +:+
                        record_text (result_of t now h)]> (files s) /\
    unwritable s' = unwritable s.
Proof.
  intros Hop Hn Hr. rewrite Stop_WriteProfile.
  destruct (WriteProfile_open _ s p Hop Hn Hr) as (s1 & -> & H1 & H2 & H3 & H4).
  eexists; split; [reflexivity |]. auto.
Qed.

Lemma Stop_closed now h t s :
  closed s ->
  count s < INT_MAX ->
  representable (result_of t now h) ->
  exists s',
    Stop now h t s = Some (stopped t, s') /\
    closed s' /\
    count s' = count s + 1 /\
    files s' = files s /\
    unwritable s' = unwritable s.
Proof.
  intros Hc Hn Hr. rewrite Stop_WriteProfile.
  destruct (WriteProfile_closed _ s Hc Hn Hr) as (s1 & -> & H1 & H2 & H3 & H4).
  eexists; split; [reflexivity |]. auto.
Qed.

(** ** Stopping a timer twice *)

(** C1, as the code has it.  The guard against a second stop is in the
    destructor: after an explicit [Stop()], which writes exactly one record
    (one separator and one serialized record appended to the open file, the
    counter moved by one), the destructor returns without any effect,
    whatever the clock shows by then. *)
Theorem C1_stop_then_destructor (t : InstrumentationTimer) (s : State)
    (p : string) (now h : Z) :
  open_at p s ->
  count s < INT_MAX ->
  representable (result_of t now h) ->
  exists s1,
    Stop now h t s = Some (stopped t, s1) /\
    files s1 = <[p := content s p +:+ separator (count s) +:+
                        record_text (result_of t now h)]> (files s) /\
    count s1 = count s + 1 /\
    forall now' h', Timer_dtor now' h' (stopped t) s1 = Some s1.
Proof.
  intros Hop Hn Hr.
  destruct (Stop_open now h t s p Hop Hn Hr) as (s1 & HS & _ & Hc & Hf & _).
  exists s1. split; [exact HS | split; [exact Hf | split; [exact Hc |]]].
  intros now' h'. now apply Timer_dtor_stopped.
Qed.

Lemma C1_stop_then_destructor_witness :
  open_at "r.json" session_P /\
  count session_P < INT_MAX /\
  representable (result_of timer_f 150 7) /\
  exists s1,
    Stop 150 7 timer_f session_P = Some (stopped timer_f, s1) /\
    files s1 = <["r.json" := content session_P "r.json" +:+ separator (count session_P) +:+
                        record_text (result_of timer_f 150 7)]> (files session_P) /\
    count s1 = count session_P + 1 /\
    forall now' h', Timer_dtor now' h' (stopped timer_f) s1 = Some s1.
Proof.
  assert (H1 : open_at "r.json" session_P) by reflexivity.
  assert (H2 : count session_P < INT_MAX) by reflexivity.
  assert (H3 : representable (result_of timer_f 150 7)) by reflexivity.
  split; [exact H1 | split; [exact H2 | split; [exact H3 |]]].
  exact (C1_stop_then_destructor timer_f session_P "r.json" 150 7 H1 H2 H3).
Defined.

(** C1, as stated, fails: [Stop()] does not look at [m_Stopped].  A second
    explicit call writes a second record, with its own end timestamp. *)
Lemma C1_double_stop_counterexample :
  exists t1 s1 t2 s2,
    Stop 150 7 timer_f session_P = Some (t1, s1) /\
    Stop 160 7 t1 s1 = Some (t2, s2) /\
    content s1 "r.json"
      = header_text +:+ record_text (mkProfileResult "f" 100 150 7) /\
    content s2 "r.json"
      = header_text +:+ record_text (mkProfileResult "f" 100 150 7) +:+ "," +:+
        record_text (mkProfileResult "f" 100 160 7) /\
    count s2 = 2.
Proof.
  do 4 eexists.
  split; [vm_compute; reflexivity |].
  split; [vm_compute; reflexivity |].
  split; [vm_compute; reflexivity |].
  split; vm_compute; reflexivity.
Qed.

(** ** Beginning a session *)

(** C2, as the code has it.  Called while the stream has no file open and
    the record counter is at zero, on a path that can be opened,
    [BeginSession] creates or truncates the file, writes the header to it,
    records the session name and leaves the counter at zero. *)
Theorem C2_begin_opens_and_writes_header (name path : string) (s : State) :
  closed s ->
  count s = 0 ->
  path ∉ unwritable s ->
  open_at path (BeginSession name path s) /\
  files (BeginSession name path s) = <[path := header_text]> (files s) /\
  session (BeginSession name path s) = Some (mkSession name) /\
  count (BeginSession name path s) = 0.
Proof.
  intros Hc H0 Hw.
  destruct (BeginSession_closed name path s Hc Hw) as (H1 & H2 & H3 & H4 & _).
  rewrite H3. auto.
Qed.

Lemma C2_begin_opens_and_writes_header_witness :
  closed (initial ∅ ∅) /\
  count (initial ∅ ∅) = 0 /\
  ("r.json" ∉ unwritable (initial ∅ ∅)) /\
  open_at "r.json" (BeginSession "P" "r.json" (initial ∅ ∅)) /\
  files (BeginSession "P" "r.json" (initial ∅ ∅))
    = <["r.json" := header_text]> (files (initial ∅ ∅)) /\
  session (BeginSession "P" "r.json" (initial ∅ ∅)) = Some (mkSession "P") /\
  count (BeginSession "P" "r.json" (initial ∅ ∅)) = 0.
Proof.
  assert (H1 : closed (initial ∅ ∅)) by reflexivity.
  assert (H2 : count (initial ∅ ∅) = 0) by reflexivity.
  assert (H3 : "r.json" ∉ unwritable (initial ∅ ∅)) by apply not_elem_of_empty.
  split; [exact H1 | split; [exact H2 | split; [exact H3 |]]].
  exact (C2_begin_opens_and_writes_header "P" "r.json" (initial ∅ ∅) H1 H2 H3).
Defined.

(** C2, as stated, fails.  With the session on [a.json] still open,
    [BeginSession("B", "b.json")] opens nothing ([b.json] does not come into
    being, and the stream is left in a failed state on [a.json]), writes no
    header, and leaves the counter at one. *)
Lemma C2_begin_while_open_counterexample :
  exists s1,
    session_A_one_record = Some s1 /\
    count (BeginSession "B" "b.json" s1) = 1 /\
    files (BeginSession "B" "b.json" s1) !! "b.json" = None /\
    stream (BeginSession "B" "b.json" s1) = mkOfstream (Some "a.json") false /\
    files (BeginSession "B" "b.json" s1) = files s1.
Proof.
  eexists. split; [vm_compute; reflexivity |].
  repeat split; vm_compute; reflexivity.
Qed.

(** ** Ending a session that is not open *)

(** C6.  [EndSession] is a total function of the state.  On the singleton as
    constructed (no session ever begun) it leaves the files as they are, and
    so does a second [EndSession] right after a first. *)
Theorem C6_end_without_open_session :
  (forall fs ro, files (EndSession (initial fs ro)) = fs) /\
  (forall s, files (EndSession (EndSession s)) = files (EndSession s)).
Proof.
  split.
  - intros fs ro. now rewrite EndSession_closed.
  - intros s. apply EndSession_closed. apply EndSession_closes.
Qed.

(** ** Stopping a timer after the session ended *)

(** C10.  After [EndSession] a stop, explicit or from the destructor,
    returns normally, leaves every file as [EndSession] left it, and moves
    the record counter from zero to one. *)
Theorem C10_stop_after_end (s : State) (t : InstrumentationTimer) (now h : Z) :
  representable (result_of t now h) ->
  exists s',
    Stop now h t (EndSession s) = Some (stopped t, s') /\
    Timer_dtor now h (mkTimer (m_Name t) (m_StartTimepoint t) false) (EndSession s)
      = Some s' /\
    files s' = files (EndSession s) /\
    count (EndSession s) = 0 /\
    count s' = 1.
Proof.
  intros Hr.
  destruct (EndSession_closes s) as (Hc & Hn & _).
  destruct (Stop_closed now h t (EndSession s) Hc) as (s' & HS & _ & Hc' & Hf & _);
    [rewrite Hn; reflexivity | exact Hr |].
  exists s'. split; [exact HS |]. split.
  - rewrite Timer_dtor_running by reflexivity.
    rewrite Stop_WriteProfile in HS |- *.
    change (result_of (mkTimer (m_Name t) (m_StartTimepoint t) false) now h)
      with (result_of t now h).
    destruct (WriteProfile (result_of t now h) (EndSession s)); [| discriminate].
    now inversion HS.
  - split; [exact Hf | split; [exact Hn | lia]].
Qed.

Lemma C10_stop_after_end_witness :
  representable (result_of timer_f 300 7) /\
  exists s',
    Stop 300 7 timer_f (EndSession two_records_session) = Some (stopped timer_f, s') /\
    Timer_dtor 300 7 (mkTimer (m_Name timer_f) (m_StartTimepoint timer_f) false)
      (EndSession two_records_session) = Some s' /\
    files s' = files (EndSession two_records_session) /\
    count (EndSession two_records_session) = 0 /\
    count s' = 1.
Proof.
  assert (H : representable (result_of timer_f 300 7)) by reflexivity.
  split; [exact H |].
  exact (C10_stop_after_end two_records_session timer_f 300 7 H).
Defined.

(** ** Separators *)

Lemma length_append (a b : string) :
  String.length (a +:+ b) = (String.length a + String.length b)%nat.
Proof. induction a as [|c a IH]; simpl; [reflexivity | now rewrite IH]. Qed.

Lemma length_emitted_pos n rs :
  0 < n ->
  String.length (emitted n rs) = (records_length rs + length rs)%nat.
Proof.
  revert n. induction rs as [|r rs IH]; intros n Hn; [reflexivity |].
  rewrite emitted_cons, (separator_pos n Hn), !length_append, (IH (n + 1)) by lia.
  unfold records_length. rewrite map_cons. simpl. lia.
Qed.

Lemma length_emitted_zero rs :
  Z.of_nat (String.length (emitted 0 rs))
  = Z.of_nat (records_length rs) + Z.max 0 (Z.of_nat (length rs) - 1).
Proof.
  destruct rs as [|r rs]; [reflexivity |].
  rewrite emitted_cons, !length_append, length_emitted_pos by lia.
  unfold records_length. rewrite map_cons. simpl. lia.
Qed.

(** C4.  From a counter at zero, on an open stream, [N] calls of
    [WriteProfile] append the [N] records separated by commas: call number
    [i] (from 0) appends a comma before its record exactly when [i] is not
    0, and what is appended as a whole is [max 0 (N - 1)] bytes longer than
    the records. *)
Theorem C4_separating_commas (rs : list ProfileResult) (s : State) (p : string) :
  open_at p s ->
  count s = 0 ->
  Z.of_nat (length rs) <= INT_MAX ->
  Forall representable rs ->
  exists s',
    write_records rs s = Some s' /\
    content s' p = content s p +:+ String.concat "," (map record_text rs) /\
    (forall i r, rs !! i = Some r ->
       exists si si',
         write_records (take i rs) s = Some si /\
         WriteProfile r si = Some si' /\
         write_records (take (S i) rs) s = Some si' /\
         content si' p
         = content si p +:+ (if decide (i = 0%nat) then EmptyString else ",") +:+
           record_text r) /\
    Z.of_nat (String.length (content s' p))
    = Z.of_nat (String.length (content s p)) + Z.of_nat (records_length rs)
      + Z.max 0 (Z.of_nat (length rs) - 1).
Proof.
  intros Hop H0 Hn Hrep.
  destruct (write_records_open rs s p Hop) as (s' & Hw & _ & _ & Hc & _);
    [lia | exact Hrep |].
  exists s'. split; [exact Hw |].
  rewrite H0 in Hc. split; [now rewrite Hc, emitted_zero | split].
  - intros i r Hi.
    pose proof (lookup_lt_Some _ _ _ Hi) as Hlt.
    assert (Hrep_i : Forall representable (take i rs)) by now apply Forall_take.
    destruct (write_records_open (take i rs) s p Hop) as (si & Hwi & Hopi & Hci & _);
      [rewrite length_take; lia | exact Hrep_i |].
    rewrite length_take, H0 in Hci.
    assert (Hr : representable r).
    { rewrite Forall_forall in Hrep. apply Hrep. eapply list_elem_of_lookup_2, Hi. }
    destruct (WriteProfile_open r si p Hopi) as (si' & Hwr & _ & _ & Hf & _);
      [lia | exact Hr |].
    exists si, si'. split; [exact Hwi | split; [exact Hwr | split]].
    + rewrite (take_S_r _ _ _ Hi), write_records_app, Hwi. simpl. now rewrite Hwr.
    + rewrite (content_insert _ _ _ _ Hf). do 2 f_equal.
      unfold separator. rewrite Hci.
      destruct (decide (i = 0%nat)) as [-> | Hne]; [reflexivity |].
      replace (i `min` length rs)%nat with i by lia.
      destruct i; [congruence | reflexivity].
  - rewrite Hc, length_append, Nat2Z.inj_add, length_emitted_zero. lia.
Qed.

Lemma C4_separating_commas_witness :
  open_at "r.json" session_P /\
  count session_P = 0 /\
  Z.of_nat (length [mkProfileResult "f1" 100 150 7; mkProfileResult "f2" 150 210 7])
    <= INT_MAX /\
  Forall representable [mkProfileResult "f1" 100 150 7; mkProfileResult "f2" 150 210 7] /\
  exists s',
    write_records [mkProfileResult "f1" 100 150 7; mkProfileResult "f2" 150 210 7]
      session_P = Some s' /\
    content s' "r.json"
    = content session_P "r.json" +:+
      String.concat ","
        (map record_text [mkProfileResult "f1" 100 150 7; mkProfileResult "f2" 150 210 7]).
Proof.
  assert (H1 : open_at "r.json" session_P) by reflexivity.
  assert (H2 : count session_P = 0) by reflexivity.
  assert (H3 : Z.of_nat (length [mkProfileResult "f1" 100 150 7;
                                 mkProfileResult "f2" 150 210 7]) <= INT_MAX)
    by (vm_compute; discriminate).
  assert (H4 : Forall representable [mkProfileResult "f1" 100 150 7;
                                     mkProfileResult "f2" 150 210 7])
    by (repeat constructor).
  split; [exact H1 | split; [exact H2 | split; [exact H3 | split; [exact H4 |]]]].
  destruct (C4_separating_commas _ session_P "r.json" H1 H2 H3 H4)
    as (s' & Hw & Hc & _).
  exists s'. split; [exact Hw | exact Hc].
Defined.

(** ** The JSON recogniser: fuel *)

Lemma bind_extends {A B} (p q : string -> Json.res A) (k k' : A -> string -> Json.res B)
    (s : string) (r : Json.res B) :
  extends p q ->
  (forall a rest, k a rest = r -> r <> Json.NoFuel -> k' a rest = r) ->
  Json.bind (p s) k = r -> r <> Json.NoFuel -> Json.bind (q s) k' = r.
Proof.
  intros Hpq Hk H Hr.
  destruct (p s) as [a rest | |] eqn:E; simpl in H.
  - rewrite (Hpq s _ E) by discriminate. simpl. now apply Hk.
  - rewrite (Hpq s _ E) by discriminate. exact H.
  - congruence.
Qed.

Lemma value_step_extends pm pm' pe pe' :
  extends pm pm' -> extends pe pe' ->
  extends (Json.value_step pm pe) (Json.value_step pm' pe').
Proof.
  intros Hm He s r H Hr. unfold Json.value_step in *.
  destruct (Json.skip_ws s) as [|c t]; [exact H |].
  destruct (Ascii.eqb c "{").
  { destruct (Json.skip_ws t) as [|c' t']; [exact H |].
    destruct (Ascii.eqb c' "}"); [exact H |].
    eapply (bind_extends pm pm'); [exact Hm | | exact H | exact Hr]; auto. }
  destruct (Ascii.eqb c "[").
  { destruct (Json.skip_ws t) as [|c' t']; [exact H |].
    destruct (Ascii.eqb c' "]"); [exact H |].
    eapply (bind_extends pe pe'); [exact He | | exact H | exact Hr]; auto. }
  exact H.
Qed.

Lemma elements_step_extends pv pv' pe pe' :
  extends pv pv' -> extends pe pe' ->
  extends (Json.elements_step pv pe) (Json.elements_step pv' pe').
Proof.
  intros Hv He s r H Hr. unfold Json.elements_step in *.
  eapply (bind_extends pv pv'); [exact Hv | | exact H | exact Hr].
  intros v t H1 _. cbv beta in H1 |- *.
  destruct (Json.skip_ws t) as [|c t']; [exact H1 |].
  destruct (Ascii.eqb c ","); [| exact H1].
  eapply (bind_extends pe pe'); [exact He | | exact H1 | exact Hr]; auto.
Qed.

Lemma members_step_extends pv pv' pm pm' :
  extends pv pv' -> extends pm pm' ->
  extends (Json.members_step pv pm) (Json.members_step pv' pm').
Proof.
  intros Hv Hm s r H Hr. unfold Json.members_step in *.
  destruct (Json.skip_ws s) as [|c t]; [exact H |].
  destruct (Ascii.eqb c dq); [| exact H].
  destruct (Json.of_option (Json.scan_string t)) as [k r1 | |]; simpl in *;
    [| exact H | exact H].
  destruct (Json.skip_ws r1) as [|c1 r2]; [exact H |].
  destruct (Ascii.eqb c1 ":"); [| exact H].
  eapply (bind_extends pv pv'); [exact Hv | | exact H | exact Hr].
  intros v r3 H1 _. cbv beta in H1 |- *.
  destruct (Json.skip_ws r3) as [|c3 r4]; [exact H1 |].
  destruct (Ascii.eqb c3 ","); [| exact H1].
  eapply (bind_extends pm pm'); [exact Hm | | exact H1 | exact Hr]; auto.
Qed.

(** More fuel never changes a verdict. *)
Lemma parse_fuel_S f :
  extends (Json.parse_value f) (Json.parse_value (S f)) /\
  extends (Json.parse_elements f) (Json.parse_elements (S f)) /\
  extends (Json.parse_members f) (Json.parse_members (S f)).
Proof.
  induction f as [|f (IHv & IHe & IHm)].
  - repeat split; intros s r H Hr; simpl in H; congruence.
  - split; [| split].
    + change (extends (Json.value_step (Json.parse_members f) (Json.parse_elements f))
                (Json.value_step (Json.parse_members (S f)) (Json.parse_elements (S f)))).
      now apply value_step_extends.
    + change (extends (Json.elements_step (Json.parse_value f) (Json.parse_elements f))
                (Json.elements_step (Json.parse_value (S f)) (Json.parse_elements (S f)))).
      now apply elements_step_extends.
    + change (extends (Json.members_step (Json.parse_value f) (Json.parse_members f))
                (Json.members_step (Json.parse_value (S f)) (Json.parse_members (S f)))).
      now apply members_step_extends.
Qed.

Lemma parse_value_fuel f k s r :
  Json.parse_value f s = r -> r <> Json.NoFuel -> Json.parse_value (k + f) s = r.
Proof.
  intros H Hr. induction k as [|k IH]; [exact H |].
  now apply (proj1 (parse_fuel_S (k + f))).
Qed.

Lemma parse_elements_fuel f k s r :
  Json.parse_elements f s = r -> r <> Json.NoFuel -> Json.parse_elements (k + f) s = r.
Proof.
  intros H Hr. induction k as [|k IH]; [exact H |].
  now apply (proj1 (proj2 (parse_fuel_S (k + f)))).
Qed.

Lemma parse_members_fuel f k s r :
  Json.parse_members f s = r -> r <> Json.NoFuel -> Json.parse_members (k + f) s = r.
Proof.
  intros H Hr. induction k as [|k IH]; [exact H |].
  now apply (proj2 (proj2 (parse_fuel_S (k + f)))).
Qed.

Lemma parse_doc_fuel f k s r :
  Json.parse_doc f s = r -> r <> Json.NoFuel -> Json.parse_doc (k + f) s = r.
Proof.
  unfold Json.parse_doc. intros H Hr.
  destruct (Json.parse_value f s) as [v t | |] eqn:E; simpl in H.
  - now rewrite (parse_value_fuel f k s _ E).
  - now rewrite (parse_value_fuel f k s _ E).
  - congruence.
Qed.

(** Two runs of the recogniser that both reach a verdict agree. *)
Lemma parse_doc_verdict f f' s r r' :
  Json.parse_doc f s = r -> r <> Json.NoFuel ->
  Json.parse_doc f' s = r' -> r' <> Json.NoFuel ->
  r = r'.
Proof.
  intros H Hr H' Hr'.
  pose proof (parse_doc_fuel f f' s r H Hr) as E.
  pose proof (parse_doc_fuel f' f s r' H' Hr') as E'.
  rewrite Nat.add_comm in E'. congruence.
Qed.

(** A syntax error at some fuel: the text is not JSON. *)
Lemma not_valid_of_Bad f s : Json.parse_doc f s = Json.Bad -> ~ Json.valid s.
Proof.
  intros H (v & f' & H').
  pose proof (parse_doc_verdict f f' s _ _ H ltac:(discriminate) H' ltac:(discriminate)).
  discriminate.
Qed.

Lemma parses_to_unique s v v' :
  Json.parses_to s v -> Json.parses_to s v' -> v = v'.
Proof.
  intros (f & H) (f' & H').
  pose proof (parse_doc_verdict f f' s _ _ H ltac:(discriminate) H' ltac:(discriminate)) as E.
  now inversion E.
Qed.

(** ** The JSON recogniser on strings and integers *)

#[local] Arguments show_int : simpl never.
#[local] Arguments escaped : simpl never.

Lemma scan_string_plain body rest :
  plain body = true ->
  has_char dq body = false ->
  Json.scan_string (body +:+ String dq rest) = Some (body, rest).
Proof.
  induction body as [|c body IH]; intros Hp Hq; [reflexivity |].
  simpl in Hp, Hq.
  apply andb_prop in Hp as [Hp1 Hp]. apply andb_prop in Hp1 as [Hb Hc].
  apply orb_false_elim in Hq as [Hq1 Hq].
  apply negb_true_iff in Hb, Hc.
  simpl. rewrite Hq1, Hb, Hc, (IH Hp Hq). reflexivity.
Qed.

Lemma escaped_no_quote name : has_char dq (escaped name) = false.
Proof.
  unfold escaped. induction name as [|c name IH]; [reflexivity |].
  simpl. rewrite IH, orb_false_r.
  destruct (Ascii.eqb c dq) eqn:E; [reflexivity | exact E].
Qed.

Lemma escaped_plain name : plain (escaped name) = plain name.
Proof.
  unfold escaped. induction name as [|c name IH]; [reflexivity |].
  simpl. rewrite IH. f_equal.
  destruct (Ascii.eqb c dq) eqn:E; [| reflexivity].
  apply Ascii.eqb_eq in E. subst c. reflexivity.
Qed.

Lemma ends_number_inv rest :
  ends_number rest = true ->
  exists t, rest = String "," t \/ rest = String "}" t.
Proof.
  destruct rest as [|c t]; [discriminate |]. simpl. intros H.
  exists t. apply orb_prop in H as [H | H]; apply Ascii.eqb_eq in H; subst; auto.
Qed.

Lemma scan_digits_print u rest :
  ends_number rest = true ->
  Json.scan_digits (NilEmpty.string_of_uint u +:+ rest) = (u, rest).
Proof.
  intros H. induction u as [|u IH|u IH|u IH|u IH|u IH|u IH|u IH|u IH|u IH|u IH];
    try (simpl; rewrite IH; reflexivity).
  destruct (ends_number_inv rest H) as (t & [-> | ->]); reflexivity.
Qed.

Lemma scan_number_uint (neg : bool) u rest :
  Json.int_part_ok u = true ->
  ends_number rest = true ->
  Json.scan_number
    ((if neg then "-" else EmptyString) +:+ NilEmpty.string_of_uint u +:+ rest)
  = Some (jint (Z.of_int (if neg then Decimal.Neg u else Decimal.Pos u)), rest).
Proof.
  intros Hu Hr.
  assert (Htail : Json.scan_frac rest = Some (None, rest) /\
                  Json.scan_exp rest = Some (None, rest)).
  { destruct (ends_number_inv rest Hr) as (t & [-> | ->]); split; reflexivity. }
  destruct Htail as [Hf He].
  pose proof (scan_digits_print u rest Hr) as Hd.
  destruct neg.
  - change ("-" +:+ NilEmpty.string_of_uint u +:+ rest)
      with (String "-" (NilEmpty.string_of_uint u +:+ rest)).
    unfold Json.scan_number. change (Ascii.eqb "-" "-") with true. cbv iota.
    rewrite Hd, Hu, Hf, He. reflexivity.
  - change (EmptyString +:+ NilEmpty.string_of_uint u +:+ rest)
      with (NilEmpty.string_of_uint u +:+ rest).
    unfold Json.scan_number.
    destruct u; try discriminate Hu;
      simpl NilEmpty.string_of_uint in *; simpl String.append in *;
      cbv iota beta; (change (Ascii.eqb _ "-") with false); cbv iota;
      rewrite Hd, Hu, Hf, He; reflexivity.
Qed.

(** The digits of a positive number start with a non-zero digit. *)
Lemma to_uint_int_part_ok p : Json.int_part_ok (Pos.to_uint p) = true.
Proof.
  assert (E : Pos.to_uint p = Decimal.unorm (Pos.to_uint p)).
  { rewrite <- DecimalPos.Unsigned.to_of at 1.
    rewrite DecimalPos.Unsigned.of_to. reflexivity. }
  pose proof (DecimalPos.Unsigned.to_uint_nonzero p) as Hz.
  pose proof (DecimalPos.Unsigned.to_uint_nonnil p) as Hn.
  destruct (Pos.to_uint p) as [|u| | | | | | | | |] eqn:Eu; try reflexivity.
  - congruence.
  - exfalso. rewrite DecimalFacts.unorm_D0 in E.
    unfold Decimal.unorm in E.
    destruct (Decimal.nzhead u) eqn:En; try (symmetry in E; revert E; rewrite <- En;
      apply DecimalFacts.nzhead_nonzero).
    apply Hz. exact E.
Qed.

Lemma scan_number_show z rest :
  ends_number rest = true ->
  Json.scan_number (show_int z +:+ rest) = Some (jint z, rest).
Proof.
  intros Hr. unfold show_int.
  rewrite <- (DecimalZ.of_to z) at 2.
  destruct z as [|p|p]; unfold Z.to_int.
  - exact (scan_number_uint false Decimal.zero rest eq_refl Hr).
  - pose proof (to_uint_int_part_ok p) as Hu.
    pose proof (scan_number_uint false (Pos.to_uint p) rest Hu Hr) as H.
    simpl NilZero.string_of_int. unfold NilZero.string_of_uint.
    destruct (Pos.to_uint p); [discriminate Hu | exact H ..].
  - pose proof (to_uint_int_part_ok p) as Hu.
    pose proof (scan_number_uint true (Pos.to_uint p) rest Hu Hr) as H.
    simpl NilZero.string_of_int. unfold NilZero.string_of_uint.
    destruct (Pos.to_uint p); [discriminate Hu | exact H ..].
Qed.

(** ** The JSON recogniser on a serialized record *)

Lemma record_text_then r rest : record_text r +:+ rest = record_then r rest.
Proof.
  unfold record_text, profile_chunks, cat, record_then, member, quoted, str1.
  simpl. rewrite !append_assoc. simpl.
  rewrite !append_assoc. simpl. rewrite !append_assoc. simpl.
  rewrite !append_assoc. reflexivity.
Qed.

Lemma show_int_head z :
  exists c t, show_int z = String c t /\
    (Json.digit_of c <> None \/ c = "-"%char).
Proof.
  unfold show_int. destruct z as [|p|p]; unfold Z.to_int.
  - exists "0"%char, EmptyString. split; [reflexivity | left; discriminate].
  - pose proof (DecimalPos.Unsigned.to_uint_nonnil p) as Hn.
    simpl NilZero.string_of_int. unfold NilZero.string_of_uint.
    destruct (Pos.to_uint p); [congruence | ..];
      simpl; eexists _, _; (split; [reflexivity | left; discriminate]).
  - eexists _, _. split; [reflexivity | right; reflexivity].
Qed.

Lemma value_step_number pm pe c t :
  Json.digit_of c <> None \/ c = "-"%char ->
  Json.value_step pm pe (String c t) = Json.of_option (Json.scan_number (String c t)).
Proof.
  intros [H | ->]; [| reflexivity].
  destruct c as [[] [] [] [] [] [] [] []]; try (exfalso; apply H; reflexivity);
    reflexivity.
Qed.

Lemma parse_value_int f z rest :
  ends_number rest = true ->
  Json.parse_value (S f) (show_int z +:+ rest) = Json.Ok (jint z) rest.
Proof.
  intros Hr. pose proof (scan_number_show z rest Hr) as Hs.
  destruct (show_int_head z) as (c & t & E & Hc).
  rewrite E in *. change (String c t +:+ rest) with (String c (t +:+ rest)) in *.
  change (Json.parse_value (S f) ?s)
    with (Json.value_step (Json.parse_members f) (Json.parse_elements f) s).
  rewrite (value_step_number _ _ c _ Hc), Hs. reflexivity.
Qed.

Lemma parse_value_quoted f body rest :
  plain body = true ->
  has_char dq body = false ->
  Json.parse_value (S f) (quoted body rest) = Json.Ok (Json.Str body) rest.
Proof.
  intros Hp Hq. unfold quoted.
  change (Json.parse_value (S f) ?s)
    with (Json.value_step (Json.parse_members f) (Json.parse_elements f) s).
  unfold Json.value_step. simpl Json.skip_ws. cbv iota.
  change (Ascii.eqb dq "{") with false. change (Ascii.eqb dq "[") with false.
  change (Ascii.eqb dq dq) with true. cbv iota.
  rewrite (scan_string_plain body rest Hp Hq). reflexivity.
Qed.

Lemma parse_members_more f key vtext v rest :
  plain key = true ->
  has_char dq key = false ->
  Json.parse_value f (vtext (String "," rest)) = Json.Ok v (String "," rest) ->
  Json.parse_members (S f) (member key vtext (String "," rest))
  = Json.bind (Json.parse_members f rest)
      (fun l t => Json.Ok ((key, v) :: l) t).
Proof.
  intros Hp Hq Hv. unfold member, quoted.
  change (Json.parse_members (S f) ?s)
    with (Json.members_step (Json.parse_value f) (Json.parse_members f) s).
  unfold Json.members_step. simpl Json.skip_ws. cbv iota.
  change (Ascii.eqb dq dq) with true. cbv iota.
  rewrite (scan_string_plain key _ Hp Hq). simpl Json.of_option.
  unfold Json.bind at 1. simpl Json.skip_ws. cbv iota.
  change (Ascii.eqb ":" ":") with true. cbv iota.
  rewrite Hv. reflexivity.
Qed.

Lemma parse_members_last f key vtext v rest :
  plain key = true ->
  has_char dq key = false ->
  Json.parse_value f (vtext (String "}" rest)) = Json.Ok v (String "}" rest) ->
  Json.parse_members (S f) (member key vtext (String "}" rest))
  = Json.Ok [(key, v)] rest.
Proof.
  intros Hp Hq Hv. unfold member, quoted.
  change (Json.parse_members (S f) ?s)
    with (Json.members_step (Json.parse_value f) (Json.parse_members f) s).
  unfold Json.members_step. simpl Json.skip_ws. cbv iota.
  change (Ascii.eqb dq dq) with true. cbv iota.
  rewrite (scan_string_plain key _ Hp Hq). simpl Json.of_option.
  unfold Json.bind at 1. simpl Json.skip_ws. cbv iota.
  change (Ascii.eqb ":" ":") with true. cbv iota.
  rewrite Hv. reflexivity.
Qed.

Lemma parse_members_bad f key vtext rest :
  plain key = true ->
  has_char dq key = false ->
  Json.parse_value f (vtext rest) = Json.Bad ->
  Json.parse_members (S f) (member key vtext rest) = Json.Bad.
Proof.
  intros Hp Hq Hv. unfold member, quoted.
  change (Json.parse_members (S f) ?s)
    with (Json.members_step (Json.parse_value f) (Json.parse_members f) s).
  unfold Json.members_step. simpl Json.skip_ws. cbv iota.
  change (Ascii.eqb dq dq) with true. cbv iota.
  rewrite (scan_string_plain key _ Hp Hq). simpl Json.of_option.
  unfold Json.bind at 1. simpl Json.skip_ws. cbv iota.
  change (Ascii.eqb ":" ":") with true. cbv iota.
  rewrite Hv. reflexivity.
Qed.

(** A serialized record whose name needs no escaping parses as the object
    of its seven fields, whatever follows it. *)
Lemma parse_value_record f r rest :
  plain (Name r) = true ->
  Json.parse_value (9 + f) (record_then r rest) = Json.Ok (record_json r) rest.
Proof.
  intros Hp. unfold record_then.
  change (Json.parse_value (9 + f) ?s)
    with (Json.value_step (Json.parse_members (8 + f)) (Json.parse_elements (8 + f)) s).
  unfold Json.value_step. simpl Json.skip_ws. cbv iota.
  change (Ascii.eqb "{" "{") with true. cbv iota.
  unfold member at 1, quoted at 1. simpl Json.skip_ws. cbv iota.
  change (Ascii.eqb dq "}") with false. cbv iota.
  fold (quoted "cat" (String ":" (quoted "function" (String ","
    (member "dur" (String.append (show_int (End r - Start r))) (String ","
    (member "name" (quoted (escaped (Name r))) (String ","
    (member "ph" (quoted "X") (String ","
    (member "pid" (String.append "0") (String ","
    (member "tid" (String.append (show_int (ThreadID r))) (String ","
    (member "ts" (String.append (show_int (Start r))) (String "}" rest)))))))))))))))).
  fold (member "cat" (quoted "function") (String ","
    (member "dur" (String.append (show_int (End r - Start r))) (String ","
    (member "name" (quoted (escaped (Name r))) (String ","
    (member "ph" (quoted "X") (String ","
    (member "pid" (String.append "0") (String ","
    (member "tid" (String.append (show_int (ThreadID r))) (String ","
    (member "ts" (String.append (show_int (Start r))) (String "}" rest)))))))))))))).
  change (8 + f)%nat with (S (7 + f)).
  rewrite (parse_members_more (7 + f) "cat" (quoted "function") (Json.Str "function"));
    [| reflexivity | reflexivity | now apply parse_value_quoted].
  change (7 + f)%nat with (S (6 + f)).
  rewrite (parse_members_more (6 + f) "dur" _ (jint (End r - Start r)));
    [| reflexivity | reflexivity | now apply parse_value_int].
  change (6 + f)%nat with (S (5 + f)).
  rewrite (parse_members_more (5 + f) "name" (quoted (escaped (Name r)))
             (Json.Str (escaped (Name r))));
    [| reflexivity | reflexivity
     | apply parse_value_quoted; [now rewrite escaped_plain | apply escaped_no_quote]].
  change (5 + f)%nat with (S (4 + f)).
  rewrite (parse_members_more (4 + f) "ph" (quoted "X") (Json.Str "X"));
    [| reflexivity | reflexivity | now apply parse_value_quoted].
  change (4 + f)%nat with (S (3 + f)).
  rewrite (parse_members_more (3 + f) "pid" (String.append "0") (jint 0));
    [| reflexivity | reflexivity | reflexivity].
  change (3 + f)%nat with (S (2 + f)).
  rewrite (parse_members_more (2 + f) "tid" _ (jint (ThreadID r)));
    [| reflexivity | reflexivity | now apply parse_value_int].
  change (2 + f)%nat with (S (1 + f)).
  rewrite (parse_members_last (1 + f) "ts" _ (jint (Start r)));
    [| reflexivity | reflexivity | now apply parse_value_int].
  reflexivity.
Qed.

(** ** The JSON recogniser on a trace *)

Lemma concat_records_then rs : forall r rest,
  String.concat "," (map record_text (r :: rs)) +:+ rest = records_then r rs rest.
Proof.
  induction rs as [|r' rs IH]; intros r rest.
  - apply record_text_then.
  - change (String.concat "," (map record_text (r :: r' :: rs)))
      with (record_text r +:+ "," +:+ String.concat "," (map record_text (r' :: rs))).
    rewrite append_assoc, record_text_then.
    change (("," +:+ ?x) +:+ rest) with (String "," (x +:+ rest)).
    now rewrite IH.
Qed.

Lemma parse_elements_records f rs : forall r rest,
  Forall plain_name (r :: rs) ->
  Json.parse_elements (S (length rs) + (9 + f)) (records_then r rs (String "]" rest))
  = Json.Ok (map record_json (r :: rs)) rest.
Proof.
  induction rs as [|r' rs IH]; intros r rest H;
    inversion H as [|? ? Hr Hrs]; subst.
  - change (Json.parse_elements (S (length []) + (9 + f)) ?s)
      with (Json.elements_step (Json.parse_value (9 + f)) (Json.parse_elements (9 + f)) s).
    unfold Json.elements_step, records_then.
    rewrite (parse_value_record f r _ Hr). reflexivity.
  - change (Json.parse_elements (S (length (r' :: rs)) + (9 + f)) ?s)
      with (Json.elements_step (Json.parse_value (S (length rs) + (9 + f)))
              (Json.parse_elements (S (length rs) + (9 + f))) s).
    unfold Json.elements_step.
    change (records_then r (r' :: rs) (String "]" rest))
      with (record_then r (String "," (records_then r' rs (String "]" rest)))).
    replace (S (length rs) + (9 + f))%nat with (9 + (S (length rs) + f))%nat at 1 by lia.
    rewrite (parse_value_record _ r _ Hr).
    unfold Json.bind at 1. simpl Json.skip_ws. cbv iota.
    change (Ascii.eqb "," ",") with true. cbv iota.
    rewrite (IH r' rest Hrs). reflexivity.
Qed.

Lemma records_then_head r rs rest :
  exists t, records_then r rs rest = String "{" (String dq t).
Proof. destruct rs; eexists; reflexivity. Qed.

(** The trace of records whose names need no escaping parses as the
    document of the format, with one array element per record. *)
Lemma trace_parses rs :
  Forall plain_name rs ->
  Json.parses_to (trace_text rs) (trace_json rs).
Proof.
  intros H. destruct rs as [|r rs].
  - exists 10%nat. vm_compute. reflexivity.
  - exists (4 + (S (length rs) + (9 + 0)))%nat.
    unfold trace_text. rewrite concat_records_then.
    set (F := (S (length rs) + (9 + 0))%nat).
    change (header_text +:+ records_then r rs footer_text)
      with (String "{"
              (member "otherData" (fun k => String " " (String "{" (String "}" k)))
                 (String ","
                    (member "traceEvents"
                       (fun k => String "[" (records_then r rs (String "]" k)))
                       (String "}" EmptyString))))).
    unfold Json.parse_doc.
    change (Json.parse_value (4 + F) ?s)
      with (Json.value_step (Json.parse_members (3 + F)) (Json.parse_elements (3 + F)) s).
    unfold Json.value_step. simpl Json.skip_ws. cbv iota.
    change (Ascii.eqb "{" "{") with true. cbv iota.
    unfold member at 1, quoted at 1. simpl Json.skip_ws. cbv iota.
    change (Ascii.eqb dq "}") with false. cbv iota.
    change (String dq ("otherData" +:+ String dq (String ":" ?v)))
      with (member "otherData" (fun k => String " " (String "{" (String "}" k)))
              (String ","
                 (member "traceEvents"
                    (fun k => String "[" (records_then r rs (String "]" k)))
                    (String "}" EmptyString)))).
    change (3 + F)%nat with (S (S (1 + F))).
    rewrite (parse_members_more (S (1 + F)) "otherData" _ (Json.Obj []));
      [| reflexivity | reflexivity | reflexivity].
    change (S (1 + F)) with (S (S F)).
    rewrite (parse_members_last (S F) "traceEvents" _ (Json.Arr (map record_json (r :: rs))));
      [reflexivity | reflexivity | reflexivity |].
    change (Json.parse_value (S F) ?s)
      with (Json.value_step (Json.parse_members F) (Json.parse_elements F) s).
    unfold Json.value_step. simpl Json.skip_ws. cbv iota.
    change (Ascii.eqb "[" "{") with false. change (Ascii.eqb "[" "[") with true.
    cbv iota.
    destruct (records_then_head r rs (String "]" (String "}" EmptyString))) as (t & Et).
    rewrite Et. simpl Json.skip_ws. cbv iota.
    change (Ascii.eqb "{" "]") with false. cbv iota. rewrite <- Et.
    subst F. rewrite (parse_elements_records 0 rs r _ H). reflexivity.
Qed.

(** ** A whole session *)

Lemma completions_length cs : forall live rs,
  completions live cs = Some rs ->
  length rs = (timers_constructed cs + size live)%nat.
Proof.
  induction cs as [|c cs IH]; intros live rs H; simpl in H.
  - destruct (decide (live = ∅)) as [-> |]; [| discriminate].
    inversion H. now rewrite map_size_empty.
  - destruct c as [| |id name now| |id now h]; try discriminate.
    + destruct (live !! id) eqn:E; [discriminate |].
      rewrite (IH _ _ H), map_size_insert_None by exact E. simpl. lia.
    + destruct (live !! id) as [t|] eqn:E; [| discriminate].
      destruct (completions (delete id live) cs) as [rs'|] eqn:E'; [| discriminate].
      inversion H; subst. simpl.
      rewrite (IH _ _ E'), map_size_delete_Some by eauto.
      pose proof (map_size_ne_0_lookup_2 live id (mk_is_Some _ _ E)). simpl. lia.
Qed.

(** Any number of timers in a row is a body, with one record each. *)
Lemma completions_scopes l :
  completions ∅ (scopes l) = Some (map scope_record l) /\
  timers_constructed (scopes l) = length l.
Proof.
  induction l as [|[[[name start] stop] h] l [IH1 IH2]]; [split; reflexivity |].
  split.
  - simpl. rewrite lookup_empty, lookup_insert_eq, delete_insert_eq, delete_empty, IH1.
    reflexivity.
  - simpl. now rewrite IH2.
Qed.

Lemma run_body cs : forall live s p rs,
  completions live cs = Some rs ->
  map_Forall (fun _ t => running t) live ->
  open_at p s ->
  count s + Z.of_nat (length rs) <= INT_MAX ->
  Forall representable rs ->
  exists s',
    run cs (mkMachine live s) = Some (mkMachine ∅ s') /\
    open_at p s' /\
    count s' = count s + Z.of_nat (length rs) /\
    content s' p = content s p +:+ emitted (count s) rs /\
    same_elsewhere p s s' /\
    unwritable s' = unwritable s.
Proof.
  induction cs as [|c cs IH]; intros live s p rs H Hlive Hop Hn Hrep; simpl in H.
  - destruct (decide (live = ∅)) as [-> |]; [| discriminate].
    inversion H; subst. exists s. simpl. rewrite append_nil_r, Z.add_0_r.
    repeat split; auto.
  - destruct c as [| |id name now| |id now h]; try discriminate.
    + destruct (live !! id) eqn:E; [discriminate |].
      destruct (IH _ (cout ("Timer started for: " +:+ name) s) p rs H) as (s' & Hrun & R);
        [now apply map_Forall_insert_2 | exact Hop | exact Hn | exact Hrep |].
      exists s'. split; [| exact R].
      simpl. rewrite E. exact Hrun.
    + destruct (live !! id) as [t|] eqn:E; [| discriminate].
      destruct (completions (delete id live) cs) as [rs'|] eqn:E'; [| discriminate].
      inversion H; subst. clear H.
      inversion Hrep as [|? ? Hr Hrs]; subst.
      rewrite length_cons, Nat2Z.inj_succ in Hn.
      pose proof (Hlive id t E) as Ht. simpl in Ht.
      destruct (Stop_open now h t s p Hop) as (s1 & HS & Hop1 & Hc1 & Hf1 & Hu1);
        [lia | exact Hr |].
      destruct (IH (delete id live) s1 p rs' E') as (s' & Hrun & Hop' & Hc' & Hf' & He' & Hu');
        [now apply map_Forall_delete | exact Hop1 | lia | exact Hrs |].
      exists s'. split.
      { simpl. rewrite E, (Timer_dtor_running _ _ _ _ Ht), HS. exact Hrun. }
      split; [exact Hop' | split; [| split; [| split]]].
      * rewrite Hc', Hc1, length_cons, Nat2Z.inj_succ. lia.
      * rewrite Hf', (content_insert _ _ _ _ Hf1), Hc1, emitted_cons.
        now rewrite !append_assoc.
      * intros q Hq. rewrite (He' q Hq), Hf1. now apply lookup_insert_ne.
      * congruence.
Qed.

Lemma run_app cs1 cs2 m :
  run (cs1 ++ cs2) m
  = match run cs1 m with Some m1 => run cs2 m1 | None => None end.
Proof.
  revert m. induction cs1 as [|c cs1 IH]; intros m; simpl; [reflexivity |].
  destruct (step c m); [apply IH | reflexivity].
Qed.

(** Begin, a body of completed timers, end: the file holds the trace of the
    body's records and no other file changes. *)
Lemma run_session name path body rs s :
  closed s ->
  count s = 0 ->
  path ∉ unwritable s ->
  completions ∅ body = Some rs ->
  Z.of_nat (length rs) <= INT_MAX ->
  Forall representable rs ->
  exists s',
    run (CBegin name path :: body ++ [CEnd]) (mkMachine ∅ s) = Some (mkMachine ∅ s') /\
    files s' = <[path := trace_text rs]> (files s).
Proof.
  intros Hc H0 Hw Hcomp Hn Hrep.
  destruct (BeginSession_closed name path s Hc Hw) as (Hop1 & Hf1 & Hc1 & _ & _).
  destruct (run_body body ∅ (BeginSession name path s) path rs Hcomp)
    as (s2 & Hrun & Hop2 & _ & Hf2 & He2 & _);
    [apply map_Forall_empty | exact Hop1 | lia | exact Hrep |].
  exists (EndSession s2). split.
  - change (run (CBegin name path :: body ++ [CEnd]) (mkMachine ∅ s))
      with (run (body ++ [CEnd]) (mkMachine ∅ (BeginSession name path s))).
    rewrite run_app, Hrun. reflexivity.
  - rewrite (EndSession_open path s2 Hop2), Hf2, (content_insert _ _ _ _ Hf1).
    rewrite Hc1, H0, emitted_zero.
    apply map_eq. intros q. destruct (decide (q = path)) as [-> | Hq].
    + rewrite !lookup_insert_eq. unfold trace_text. now rewrite append_assoc.
    + rewrite !lookup_insert_ne by congruence.
      rewrite (He2 q Hq), Hf1. now apply lookup_insert_ne.
Qed.

(** ** The round trip *)

(** C3, as the code has it.  From a state with no file open and the counter
    at zero, [BeginSession], a body of [N] completed timers and
    [EndSession] leave at [path] the header, the records separated by
    commas and the footer.  When no name holds a backslash or a control
    character this text is JSON: it parses as the object with [otherData]
    and [traceEvents], the latter an array of [N] objects, each with the
    fields [cat], [dur], [name], [ph], [pid], [tid], [ts] in this order,
    [cat] the string function, [ph] the string X, [pid] the number 0,
    [dur] the end minus the start and [ts] the start. *)
Theorem C3_round_trip (name path : string) (body : list call)
    (rs : list ProfileResult) (s : State) :
  closed s ->
  count s = 0 ->
  path ∉ unwritable s ->
  completions ∅ body = Some rs ->
  Z.of_nat (length rs) <= INT_MAX ->
  Forall representable rs ->
  Forall plain_name rs ->
  exists s',
    run (CBegin name path :: body ++ [CEnd]) (mkMachine ∅ s) = Some (mkMachine ∅ s') /\
    files s' = <[path := trace_text rs]> (files s) /\
    Json.parses_to (trace_text rs) (trace_json rs) /\
    length (map record_json rs) = timers_constructed body.
Proof.
  intros Hc H0 Hw Hcomp Hn Hrep Hplain.
  destruct (run_session name path body rs s Hc H0 Hw Hcomp Hn Hrep) as (s' & Hrun & Hf).
  exists s'. split; [exact Hrun | split; [exact Hf | split]].
  - now apply trace_parses.
  - rewrite length_map, (completions_length _ _ _ Hcomp), map_size_empty. lia.
Qed.

Lemma C3_round_trip_witness :
  closed (initial ∅ ∅) /\
  count (initial ∅ ∅) = 0 /\
  ("results.json" ∉ unwritable (initial ∅ ∅)) /\
  completions ∅ main_body = Some main_records /\
  Z.of_nat (length main_records) <= INT_MAX /\
  Forall representable main_records /\
  Forall plain_name main_records /\
  exists s',
    run (CBegin "Profile" "results.json" :: main_body ++ [CEnd])
      (mkMachine ∅ (initial ∅ ∅)) = Some (mkMachine ∅ s') /\
    files s' = <["results.json" := trace_text main_records]> (files (initial ∅ ∅)) /\
    Json.parses_to (trace_text main_records) (trace_json main_records) /\
    length (map record_json main_records) = timers_constructed main_body.
Proof.
  assert (H1 : closed (initial ∅ ∅)) by reflexivity.
  assert (H2 : count (initial ∅ ∅) = 0) by reflexivity.
  assert (H3 : "results.json" ∉ unwritable (initial ∅ ∅)) by apply not_elem_of_empty.
  assert (H4 : completions ∅ main_body = Some main_records) by (vm_compute; reflexivity).
  assert (H5 : Z.of_nat (length main_records) <= INT_MAX) by (vm_compute; discriminate).
  assert (H6 : Forall representable main_records) by (repeat constructor).
  assert (H7 : Forall plain_name main_records) by (repeat constructor).
  repeat (split; [assumption |]).
  exact (C3_round_trip "Profile" "results.json" main_body main_records (initial ∅ ∅)
           H1 H2 H3 H4 H5 H6 H7).
Defined.

(** C3, as stated, fails: one timer whose name is a single backslash.  The
    backslash reaches the file as it is and takes the closing quote of the
    name with it. *)
Lemma C3_backslash_counterexample :
  exists s',
    run [CBegin "P" "r.json"; CTimer 0 (str1 bslash) 100; CExit 0 150 7; CEnd]
      (mkMachine ∅ (initial ∅ ∅)) = Some (mkMachine ∅ s') /\
    content s' "r.json" = trace_text [mkProfileResult (str1 bslash) 100 150 7] /\
    ~ Json.valid (content s' "r.json").
Proof.
  eexists. split; [vm_compute; reflexivity |].
  split; [vm_compute; reflexivity |].
  apply (not_valid_of_Bad 100). vm_compute. reflexivity.
Qed.

(** ** Quotes in a name *)





(** ** Characters other than the quote *)

Lemma get_escaped name : forall i,
  String.get i (escaped name) = option_map substitute (String.get i name).
Proof.
  unfold escaped. induction name as [|c name IH]; intros i; [reflexivity |].
  destruct i as [|i]; [reflexivity | apply IH].
Qed.

(** A record named with one backslash: the backslash takes the closing
    quote of the name with it, the string ends after the comma that follows,
    and the key of the next field stands where a comma or a brace must. *)
Lemma parse_members_name_backslash f T :
  Json.parse_members (S (S f))
    (member "name" (quoted (escaped (str1 bslash)))
       (String "," (member "ph" (quoted "X") T)))
  = Json.Bad.
Proof. reflexivity. Qed.

Lemma parse_value_record_backslash f r rest :
  Name r = str1 bslash ->
  Json.parse_value (9 + f) (record_then r rest) = Json.Bad.
Proof.
  intros Hn. unfold record_then. rewrite Hn.
  change (Json.parse_value (9 + f) ?s)
    with (Json.value_step (Json.parse_members (8 + f)) (Json.parse_elements (8 + f)) s).
  unfold Json.value_step. simpl Json.skip_ws. cbv iota.
  change (Ascii.eqb "{" "{") with true. cbv iota.
  unfold member at 1, quoted at 1. simpl Json.skip_ws. cbv iota.
  change (Ascii.eqb dq "}") with false. cbv iota.
  fold (quoted "cat" (String ":" (quoted "function" (String ","
    (member "dur" (String.append (show_int (End r - Start r))) (String ","
    (member "name" (quoted (escaped (str1 bslash))) (String ","
    (member "ph" (quoted "X") (String ","
    (member "pid" (String.append "0") (String ","
    (member "tid" (String.append (show_int (ThreadID r))) (String ","
    (member "ts" (String.append (show_int (Start r))) (String "}" rest)))))))))))))))).
  fold (member "cat" (quoted "function") (String ","
    (member "dur" (String.append (show_int (End r - Start r))) (String ","
    (member "name" (quoted (escaped (str1 bslash))) (String ","
    (member "ph" (quoted "X") (String ","
    (member "pid" (String.append "0") (String ","
    (member "tid" (String.append (show_int (ThreadID r))) (String ","
    (member "ts" (String.append (show_int (Start r))) (String "}" rest)))))))))))))).
  change (8 + f)%nat with (S (7 + f)).
  rewrite (parse_members_more (7 + f) "cat" (quoted "function") (Json.Str "function"));
    [| reflexivity | reflexivity | now apply parse_value_quoted].
  change (7 + f)%nat with (S (6 + f)).
  rewrite (parse_members_more (6 + f) "dur" _ (jint (End r - Start r)));
    [| reflexivity | reflexivity | now apply parse_value_int].
  change (6 + f)%nat with (S (S (4 + f))).
  rewrite parse_members_name_backslash. reflexivity.
Qed.

Lemma record_backslash_not_valid r :
  Name r = str1 bslash -> ~ Json.valid (record_text r).
Proof.
  intros Hn. apply (not_valid_of_Bad (9 + 0)). unfold Json.parse_doc.
  rewrite <- (append_nil_r (record_text r)), record_text_then.
  rewrite (parse_value_record_backslash 0 r EmptyString Hn). reflexivity.
Qed.

(** The trace of one such record: the array of [traceEvents] does not
    parse, and so neither does the document. *)
Lemma trace_backslash_not_valid r :
  Name r = str1 bslash -> ~ Json.valid (trace_text [r]).
Proof.
  intros Hn. apply (not_valid_of_Bad (4 + (1 + (9 + 0)))).
  unfold trace_text. rewrite concat_records_then.
  set (F := (1 + (9 + 0))%nat).
  change (header_text +:+ records_then r [] footer_text)
    with (String "{"
            (member "otherData" (fun k => String " " (String "{" (String "}" k)))
               (String ","
                  (member "traceEvents"
                     (fun k => String "[" (record_then r (String "]" k)))
                     (String "}" EmptyString))))).
  unfold Json.parse_doc.
  change (Json.parse_value (4 + F) ?s)
    with (Json.value_step (Json.parse_members (3 + F)) (Json.parse_elements (3 + F)) s).
  unfold Json.value_step. simpl Json.skip_ws. cbv iota.
  change (Ascii.eqb "{" "{") with true. cbv iota.
  unfold member at 1, quoted at 1. simpl Json.skip_ws. cbv iota.
  change (Ascii.eqb dq "}") with false. cbv iota.
  change (String dq ("otherData" +:+ String dq (String ":" ?v)))
    with (member "otherData" (fun k => String " " (String "{" (String "}" k)))
            (String ","
               (member "traceEvents"
                  (fun k => String "[" (record_then r (String "]" k)))
                  (String "}" EmptyString)))).
  change (3 + F)%nat with (S (S (1 + F))).
  rewrite (parse_members_more (S (1 + F)) "otherData" _ (Json.Obj []));
    [| reflexivity | reflexivity | reflexivity].
  change (S (1 + F)) with (S (S F)).
  rewrite (parse_members_bad (S F) "traceEvents");
    [reflexivity | reflexivity | reflexivity |].
  change (Json.parse_value (S F) ?s)
    with (Json.value_step (Json.parse_members F) (Json.parse_elements F) s).
  unfold Json.value_step. simpl Json.skip_ws. cbv iota.
  change (Ascii.eqb "[" "{") with false. change (Ascii.eqb "[" "[") with true.
  cbv iota.
  destruct (records_then_head r [] (String "]" (String "}" EmptyString))) as (t & Et).
  change (records_then r [] ?k) with (record_then r k) in Et.
  rewrite Et. simpl Json.skip_ws. cbv iota.
  change (Ascii.eqb "{" "]") with false. cbv iota. rewrite <- Et.
  subst F.
  change (Json.parse_elements (1 + (9 + 0)) ?s)
    with (Json.elements_step (Json.parse_value (9 + 0)) (Json.parse_elements (9 + 0)) s).
  unfold Json.elements_step.
  rewrite (parse_value_record_backslash 0 r _ Hn). reflexivity.
Qed.

Lemma record_text_fields r :
  record_text r
  = "{" +:+ quoted "cat" (":" +:+ quoted "function" EmptyString) +:+ "," +:+
    quoted "dur" (":" +:+ show_int (End r - Start r)) +:+ "," +:+
    quoted "name" (":" +:+ str1 dq) +:+ escaped (Name r) +:+ str1 dq +:+ "," +:+
    quoted "ph" (":" +:+ quoted "X" EmptyString) +:+ "," +:+
    quoted "pid" ":0" +:+ "," +:+
    quoted "tid" (":" +:+ show_int (ThreadID r)) +:+ "," +:+
    quoted "ts" (":" +:+ show_int (Start r)) +:+ "}".
Proof.
  unfold record_text, profile_chunks, cat, quoted, str1.
  repeat (progress (rewrite ?append_assoc; simpl)). reflexivity.
Qed.

(** C9.  On an open stream [WriteProfile] appends to the file, after the
    separator, the record with its seven fields, and between the quotes of
    the [name] field stands the name with each double quote replaced by an
    apostrophe and every other character, at every position, as it was:
    a backslash and a control character are written as they are.  So for the
    name made of one backslash, whatever the timestamps and the thread, the
    record appended is not JSON, and the file of a session that writes it
    as its one record is not JSON after [EndSession] either. *)
Theorem C9_only_quotes_replaced (r : ProfileResult) (s : State) (p : string) :
  open_at p s ->
  count s < INT_MAX ->
  representable r ->
  exists s',
    WriteProfile r s = Some s' /\
    content s' p = content s p +:+ separator (count s) +:+ record_text r /\
    record_text r
    = "{" +:+ quoted "cat" (":" +:+ quoted "function" EmptyString) +:+ "," +:+
      quoted "dur" (":" +:+ show_int (End r - Start r)) +:+ "," +:+
      quoted "name" (":" +:+ str1 dq) +:+ escaped (Name r) +:+ str1 dq +:+ "," +:+
      quoted "ph" (":" +:+ quoted "X" EmptyString) +:+ "," +:+
      quoted "pid" ":0" +:+ "," +:+
      quoted "tid" (":" +:+ show_int (ThreadID r)) +:+ "," +:+
      quoted "ts" (":" +:+ show_int (Start r)) +:+ "}" /\
    (forall name i,
       String.get i (escaped name) = option_map substitute (String.get i name)) /\
    (forall c, c <> dq -> substitute c = c) /\
    substitute dq = apostrophe /\
    (Name r = str1 bslash ->
     escaped (Name r) = str1 bslash /\
     ~ Json.valid (record_text r) /\
     (count s = 0 -> content s p = header_text ->
      content (EndSession s') p = trace_text [r] /\
      ~ Json.valid (content (EndSession s') p))).
Proof.
  intros Hop Hn Hr.
  destruct (WriteProfile_open r s p Hop Hn Hr) as (s' & Hw & Hop' & _ & Hf & _).
  pose proof (content_insert _ _ _ _ Hf) as Hc.
  exists s'. split; [exact Hw | split; [exact Hc |]].
  split; [apply record_text_fields |].
  split; [exact get_escaped |].
  split.
  { intros c Hd. unfold substitute.
    destruct (Ascii.eqb c dq) eqn:E; [| reflexivity].
    apply Ascii.eqb_eq in E. contradiction. }
  split; [reflexivity |].
  intros Hname.
  split; [rewrite Hname; reflexivity |].
  split; [exact (record_backslash_not_valid r Hname) |].
  intros H0 Hh.
  assert (Ht : content (EndSession s') p = trace_text [r]).
  { rewrite (content_insert _ _ _ _ (EndSession_open p s' Hop')), Hc, Hh, H0.
    unfold trace_text, separator. simpl String.concat.
    rewrite !append_assoc. reflexivity. }
  split; [exact Ht |].
  rewrite Ht. exact (trace_backslash_not_valid r Hname).
Qed.

Lemma C9_only_quotes_replaced_witness :
  open_at "r.json" session_P /\
  count session_P < INT_MAX /\
  representable (mkProfileResult (str1 bslash) 100 150 7) /\
  exists s',
    WriteProfile (mkProfileResult (str1 bslash) 100 150 7) session_P = Some s' /\
    content s' "r.json"
    = header_text +:+ record_text (mkProfileResult (str1 bslash) 100 150 7) /\
    ~ Json.valid (record_text (mkProfileResult (str1 bslash) 100 150 7)) /\
    content (EndSession s') "r.json"
    = trace_text [mkProfileResult (str1 bslash) 100 150 7] /\
    ~ Json.valid (content (EndSession s') "r.json").
Proof.
  assert (H1 : open_at "r.json" session_P) by reflexivity.
  assert (H2 : count session_P < INT_MAX) by reflexivity.
  assert (H3 : representable (mkProfileResult (str1 bslash) 100 150 7)) by reflexivity.
  split; [exact H1 | split; [exact H2 | split; [exact H3 |]]].
  destruct (C9_only_quotes_replaced (mkProfileResult (str1 bslash) 100 150 7)
              session_P "r.json" H1 H2 H3)
    as (s' & Hw & Hc & _ & _ & _ & _ & Hb).
  destruct (Hb eq_refl) as (_ & Hv & Ht).
  destruct (Ht eq_refl eq_refl) as (Ht1 & Ht2).
  exists s'. split; [exact Hw | split; [exact Hc | split; [exact Hv |
    split; [exact Ht1 | exact Ht2]]]].
Defined.

(** ** The session name *)

Lemma same_output_refl s : same_output s s.
Proof. repeat split. Qed.

Lemma os_write_same d s1 s2 :
  same_output s1 s2 -> same_output (os_write d s1) (os_write d s2).
Proof.
  intros H. same_unpack H. unfold os_write, content. rewrite Hs, Hf.
  destruct (os_good (stream s2)); [| repeat split; assumption].
  destruct (os_file (stream s2)); [repeat split; assumption |].
  destruct d; repeat split; assumption.
Qed.

Lemma write_all_same chunks : forall s1 s2,
  same_output s1 s2 -> same_output (write_all chunks s1) (write_all chunks s2).
Proof.
  induction chunks as [|c chunks IH]; intros s1 s2 H; [exact H |].
  apply IH. now apply os_write_same.
Qed.

Lemma cout_same l1 l2 s1 s2 :
  same_output s1 s2 -> same_output (cout l1 s1) (cout l2 s2).
Proof. intros H. exact H. Qed.

Lemma set_session_same c1 c2 s1 s2 :
  same_output s1 s2 -> same_output (set_session c1 s1) (set_session c2 s2).
Proof. intros H. exact H. Qed.

Lemma set_count_same n s1 s2 :
  same_output s1 s2 -> same_output (set_count n s1) (set_count n s2).
Proof. intros H. same_unpack H. repeat split; assumption. Qed.

Lemma os_open_same path s1 s2 :
  same_output s1 s2 -> same_output (os_open path s1) (os_open path s2).
Proof.
  intros H. same_unpack H. unfold os_open. rewrite Hs, Hu, Hf.
  destruct (os_file (stream s2)); [repeat split; assumption |].
  destruct (decide (path ∈ unwritable s2)); repeat split; assumption.
Qed.

Lemma os_close_same s1 s2 :
  same_output s1 s2 -> same_output (os_close s1) (os_close s2).
Proof.
  intros H. same_unpack H. unfold os_close. rewrite Hs.
  destruct (os_file (stream s2)); repeat split; assumption.
Qed.

Lemma BeginSession_same name1 name2 path s1 s2 :
  same_output s1 s2 ->
  same_output (BeginSession name1 path s1) (BeginSession name2 path s2).
Proof.
  intros H. unfold BeginSession, WriteHeader, os_flush.
  apply cout_same, set_session_same, os_write_same, os_open_same, H.
Qed.

Lemma EndSession_same s1 s2 :
  same_output s1 s2 -> same_output (EndSession s1) (EndSession s2).
Proof.
  intros H. unfold EndSession, WriteFooter, os_flush.
  apply cout_same, set_count_same, set_session_same, os_close_same, os_write_same, H.
Qed.

Lemma WriteProfile_same r s1 s2 :
  same_output s1 s2 ->
  opt_rel same_output (WriteProfile r s1) (WriteProfile r s2).
Proof.
  intros H. pose proof H as H'. same_unpack H'.
  unfold WriteProfile, count_post_incr. rewrite Hc.
  destruct (count s2 <? INT_MAX); [| exact I].
  destruct (in_llong (End r - Start r)); [| destruct (0 <? count s2); exact I].
  unfold os_flush.
  destruct (0 <? count s2); unfold opt_rel; cbv iota;
    apply cout_same, write_all_same; try apply os_write_same;
    now apply set_count_same.
Qed.

Lemma Stop_same now h t s1 s2 :
  same_output s1 s2 ->
  opt_rel (fun a b => fst a = fst b /\ same_output (snd a) (snd b))
    (Stop now h t s1) (Stop now h t s2).
Proof.
  intros H. rewrite !Stop_WriteProfile.
  pose proof (WriteProfile_same (result_of t now h) s1 s2 H) as Hw.
  destruct (WriteProfile _ s1), (WriteProfile _ s2); simpl in *; try exact Hw.
  split; [reflexivity | exact Hw].
Qed.

Lemma Timer_dtor_same now h t s1 s2 :
  same_output s1 s2 ->
  opt_rel same_output (Timer_dtor now h t s1) (Timer_dtor now h t s2).
Proof.
  intros H. unfold Timer_dtor. destruct (m_Stopped t); simpl; [exact H |].
  pose proof (Stop_same now h t s1 s2 H) as HS.
  destruct (Stop now h t s1) as [[? ?]|], (Stop now h t s2) as [[? ?]|];
    simpl in *; try exact HS. apply HS.
Qed.

Lemma step_same c1 c2 m1 m2 :
  same_call c1 c2 -> same_machine m1 m2 ->
  opt_rel same_machine (step c1 m1) (step c2 m2).
Proof.
  intros Hc [Ht Hs]. destruct Hc as [n1 n2 path | c].
  - simpl. split; [exact Ht | now apply BeginSession_same].
  - destruct c as [name path | | id name now | id now h | id now h]; simpl.
    + split; [exact Ht | now apply BeginSession_same].
    + split; [exact Ht | now apply EndSession_same].
    + rewrite Ht. destruct (timers m2 !! id); simpl; [exact I |].
      split; [reflexivity | exact Hs].
    + rewrite Ht. destruct (timers m2 !! id) as [t|]; simpl; [| exact I].
      pose proof (Stop_same now h t _ _ Hs) as HS.
      destruct (Stop now h t (st m1)) as [[t1 s1]|],
               (Stop now h t (st m2)) as [[t2 s2]|]; simpl in *; try exact HS.
      destruct HS as [-> HS]. split; [reflexivity | exact HS].
    + rewrite Ht. destruct (timers m2 !! id) as [t|]; simpl; [| exact I].
      pose proof (Timer_dtor_same now h t _ _ Hs) as HS.
      destruct (Timer_dtor now h t (st m1)), (Timer_dtor now h t (st m2));
        simpl in *; try exact HS.
      split; [reflexivity | exact HS].
Qed.

Lemma run_same cs1 cs2 : forall m1 m2,
  Forall2 same_call cs1 cs2 -> same_machine m1 m2 ->
  opt_rel same_machine (run cs1 m1) (run cs2 m2).
Proof.
  intros m1 m2 H. revert m1 m2.
  induction H as [|c1 c2 cs1 cs2 Hc _ IH]; intros m1 m2 Hm; [exact Hm |].
  simpl. pose proof (step_same c1 c2 m1 m2 Hc Hm) as Hs.
  destruct (step c1 m1), (step c2 m2); simpl in *; try contradiction.
  - now apply IH.
  - exact I.
Qed.

(** C8.  [BeginSession] keeps the name in the session it creates, and two
    runs that differ only in the names given to [BeginSession] end alike,
    with the same files, byte for byte (or are both undefined). *)
Theorem C8_session_name_not_written (cs1 cs2 : list call) (m : Machine) :
  Forall2 same_call cs1 cs2 ->
  (forall name path s, session (BeginSession name path s) = Some (mkSession name)) /\
  opt_rel (fun m1 m2 => files (st m1) = files (st m2)) (run cs1 m) (run cs2 m).
Proof.
  intros H. split; [reflexivity |].
  pose proof (run_same cs1 cs2 m m H (conj eq_refl (same_output_refl (st m)))) as R.
  destruct (run cs1 m), (run cs2 m); simpl in *; try exact R.
  apply R.
Qed.

Lemma C8_session_name_not_written_witness :
  Forall2 same_call (CBegin "Profile" "results.json" :: main_body ++ [CEnd])
    (CBegin "Another name" "results.json" :: main_body ++ [CEnd]) /\
  opt_rel (fun m1 m2 => files (st m1) = files (st m2))
    (run (CBegin "Profile" "results.json" :: main_body ++ [CEnd])
       (mkMachine ∅ (initial ∅ ∅)))
    (run (CBegin "Another name" "results.json" :: main_body ++ [CEnd])
       (mkMachine ∅ (initial ∅ ∅))).
Proof.
  assert (H : Forall2 same_call (CBegin "Profile" "results.json" :: main_body ++ [CEnd])
                (CBegin "Another name" "results.json" :: main_body ++ [CEnd])).
  { constructor; [apply same_begin |]. repeat (constructor; [apply same_refl |]).
    constructor. }
  split; [exact H |].
  exact (proj2 (C8_session_name_not_written _ _ (mkMachine ∅ (initial ∅ ∅)) H)).
Defined.

(** ** Calls that overlap *)

Lemma write_all_cons c chunks s :
  write_all (c :: chunks) s = write_all chunks (os_write c s).
Proof. reflexivity. Qed.

Lemma profile_chunks_length r : (length ("," :: profile_chunks r) <= 18)%nat.
Proof. unfold profile_chunks. simpl. lia. Qed.

Lemma run_thread_Finished n s : run_thread n Finished s = Some (Finished, s).
Proof. induction n as [|n IH]; [reflexivity | exact IH]. Qed.

Lemma run_thread_Writing r pending : forall s n,
  run_thread (S (length pending) + n) (Writing r pending) s
  = Some (Finished,
          cout ("Profile written for: " +:+ escaped (Name r))
            (os_flush (write_all pending s))).
Proof.
  induction pending as [|c pending IH]; intros s n.
  - apply run_thread_Finished.
  - apply (IH (os_write c s) n).
Qed.

(** A thread left alone carries out [WriteProfile]. *)
Lemma run_thread_WriteProfile r s :
  run_thread 20 (Entering r) s
  = option_map (fun s' => (Finished, s')) (WriteProfile r s).
Proof.
  unfold WriteProfile.
  change (run_thread 20 (Entering r) s)
    with (match thread_step (Entering r) s with
          | Some (t', s') => run_thread 19 t' s'
          | None => None
          end).
  unfold thread_step.
  destruct (count_post_incr s) as [[more s1]|]; [| reflexivity].
  destruct (in_llong (End r - Start r)); [| reflexivity].
  destruct more; cbv iota; unfold option_map.
  - change ([","] ++ profile_chunks r) with ("," :: profile_chunks r).
    rewrite <- (write_all_cons "," (profile_chunks r) s1).
    generalize ("," :: profile_chunks r) (profile_chunks_length r).
    intros pending Hlen.
    replace 19%nat with (S (length pending) + (18 - length pending))%nat by lia.
    apply run_thread_Writing.
  - change ([] ++ profile_chunks r) with (profile_chunks r).
    generalize (profile_chunks r) (profile_chunks_length r).
    intros pending Hlen.
    replace 19%nat with (S (length pending) + (18 - length pending))%nat
      by (simpl in Hlen; lia).
    apply run_thread_Writing.
Qed.

Lemma interleave_first n : forall sched a b s,
  interleave (replicate n false ++ sched) a b s
  = match run_thread n a s with
    | Some (a', s') => interleave sched a' b s'
    | None => None
    end.
Proof.
  induction n as [|n IH]; intros sched a b s; [reflexivity |].
  simpl. destruct (thread_step a s) as [[a' s']|]; [apply IH | reflexivity].
Qed.

Lemma interleave_second n : forall a b s,
  interleave (replicate n true) a b s
  = match run_thread n b s with
    | Some (b', s') => Some (a, b', s')
    | None => None
    end.
Proof.
  induction n as [|n IH]; intros a b s; [reflexivity |].
  simpl. destruct (thread_step b s) as [[b' s']|]; [apply IH | reflexivity].
Qed.

Lemma interleave_serial rA rB s :
  interleave serial (Entering rA) (Entering rB) s
  = option_map (fun s' => (Finished, Finished, s')) (write_records [rA; rB] s).
Proof.
  unfold serial. rewrite interleave_first, run_thread_WriteProfile.
  change (write_records [rA; rB] s)
    with (match WriteProfile rA s with
          | Some s1 => match WriteProfile rB s1 with
                       | Some s2 => Some s2
                       | None => None
                       end
          | None => None
          end).
  destruct (WriteProfile rA s) as [s1|]; [| reflexivity]. unfold option_map at 1.
  rewrite interleave_second, run_thread_WriteProfile.
  destruct (WriteProfile rB s1); reflexivity.
Qed.

(** C7, as the code has it.  Nothing in [WriteProfile] excludes another
    call.  Two calls keep their records whole and comma-separated when one
    runs to its end before the other starts: the file then receives the
    first record (after a comma if the counter was not zero), a comma, and
    the second record, as two calls in a row leave them. *)
Theorem C7_calls_one_after_the_other (rA rB : ProfileResult) (s : State) (p : string) :
  open_at p s ->
  0 <= count s ->
  count s + 2 <= INT_MAX ->
  representable rA ->
  representable rB ->
  exists s',
    interleave serial (Entering rA) (Entering rB) s = Some (Finished, Finished, s') /\
    write_records [rA; rB] s = Some s' /\
    content s' p
    = content s p +:+ separator (count s) +:+ record_text rA +:+ "," +:+ record_text rB.
Proof.
  intros Hop H0 Hn HA HB.
  destruct (write_records_open [rA; rB] s p Hop) as (s' & Hw & _ & _ & Hc & _);
    [simpl; lia | repeat constructor; assumption |].
  exists s'. rewrite interleave_serial, Hw.
  split; [reflexivity | split; [reflexivity |]].
  rewrite Hc, !emitted_cons, (separator_pos (count s + 1)) by lia.
  change (emitted (count s + 1 + 1) []) with EmptyString.
  now rewrite append_nil_r.
Qed.

Lemma C7_calls_one_after_the_other_witness :
  open_at "r.json" session_P /\
  0 <= count session_P /\
  count session_P + 2 <= INT_MAX /\
  representable record_f1 /\
  representable record_f2 /\
  exists s',
    interleave serial (Entering record_f1) (Entering record_f2) session_P
      = Some (Finished, Finished, s') /\
    write_records [record_f1; record_f2] session_P = Some s' /\
    content s' "r.json"
    = content session_P "r.json" +:+ separator (count session_P) +:+
      record_text record_f1 +:+ "," +:+ record_text record_f2.
Proof.
  assert (H1 : open_at "r.json" session_P) by reflexivity.
  assert (H2 : 0 <= count session_P) by (vm_compute; discriminate).
  assert (H3 : count session_P + 2 <= INT_MAX) by (vm_compute; discriminate).
  assert (H4 : representable record_f1) by reflexivity.
  assert (H5 : representable record_f2) by reflexivity.
  repeat (split; [assumption |]).
  exact (C7_calls_one_after_the_other record_f1 record_f2 session_P "r.json"
           H1 H2 H3 H4 H5).
Defined.

(** C7, as stated, fails: two calls whose steps take turns.  Both run to
    their end, and the file holds their insertions mixed (the separator
    after the opening brace of the first record, the fields of the two
    records in turn); it is neither order of the two records, and ending
    the session does not make it JSON. *)
Lemma C7_interleaving_counterexample :
  exists s',
    interleave (alternate 20) (Entering record_f1) (Entering record_f2) session_P
      = Some (Finished, Finished, s') /\
    content s' "r.json" <> header_text +:+ record_text record_f1 +:+ "," +:+
                           record_text record_f2 /\
    content s' "r.json" <> header_text +:+ record_text record_f2 +:+ "," +:+
                           record_text record_f1 /\
    String.prefix
      (header_text +:+ "{," +:+ quoted "cat" (":" +:+ quoted "function" ",{") +:+
       quoted "dur" ":" +:+ quoted "cat" (":" +:+ quoted "function" ",50"))
      (content s' "r.json") = true /\
    ~ Json.valid (content (EndSession s') "r.json").
Proof.
  eexists. split; [vm_compute; reflexivity |].
  split; [vm_compute; discriminate |].
  split; [vm_compute; discriminate |].
  split; [vm_compute; reflexivity |].
  apply (not_valid_of_Bad 100). vm_compute. reflexivity.
Qed.

(** * Further properties *)

(** ** Primitives, one field at a time *)

Lemma count_cout l s : count (cout l s) = count s.
Proof. reflexivity. Qed.

Lemma console_cout l s : console (cout l s) = console s ++ [l].
Proof. reflexivity. Qed.

Lemma stream_cout l s : stream (cout l s) = stream s.
Proof. reflexivity. Qed.

Lemma os_write_file d s : os_file (stream (os_write d s)) = os_file (stream s).
Proof.
  unfold os_write.
  destruct (os_good (stream s)); [| reflexivity].
  destruct (os_file (stream s)) eqn:E; [exact E |].
  destruct d; [exact E | reflexivity].
Qed.

Lemma os_write_console d s : console (os_write d s) = console s.
Proof.
  unfold os_write.
  destruct (os_good (stream s)); [| reflexivity].
  destruct (os_file (stream s)); [reflexivity |].
  destruct d; reflexivity.
Qed.

Lemma write_all_console chunks : forall s, console (write_all chunks s) = console s.
Proof.
  induction chunks as [|c chunks IH]; intros s; [reflexivity |].
  rewrite write_all_cons, IH. apply os_write_console.
Qed.

Lemma write_all_count chunks : forall s, count (write_all chunks s) = count s.
Proof.
  induction chunks as [|c chunks IH]; intros s; [reflexivity |].
  rewrite write_all_cons, IH. apply os_write_count.
Qed.

Lemma write_all_file chunks : forall s,
  os_file (stream (write_all chunks s)) = os_file (stream s).
Proof.
  induction chunks as [|c chunks IH]; intros s; [reflexivity |].
  rewrite write_all_cons, IH. apply os_write_file.
Qed.

Lemma os_open_console path s : console (os_open path s) = console s.
Proof.
  unfold os_open. destruct (os_file (stream s)); [reflexivity |].
  destruct (decide (path ∈ unwritable s)); reflexivity.
Qed.

Lemma os_close_console s : console (os_close s) = console s.
Proof. unfold os_close. destruct (os_file (stream s)); reflexivity. Qed.

Lemma os_close_files s : files (os_close s) = files s.
Proof. unfold os_close. destruct (os_file (stream s)); reflexivity. Qed.

(** What [WriteProfile] is made of, with the state after the counter step
    named. *)
Lemma WriteProfile_inv r s s' :
  WriteProfile r s = Some s' ->
  count s < INT_MAX /\ representable r /\
  exists s1,
    (s1 = set_count (count s + 1) s \/
     s1 = os_write "," (set_count (count s + 1) s)) /\
    s' = cout ("Profile written for: " +:+ escaped (Name r))
           (write_all (profile_chunks r) s1).
Proof.
  unfold WriteProfile, count_post_incr, representable, os_flush.
  destruct (count s <? INT_MAX) eqn:E; [| discriminate].
  apply Z.ltb_lt in E.
  destruct (in_llong (End r - Start r)); [| destruct (0 <? count s); discriminate].
  intros H. split; [exact E | split; [reflexivity |]].
  destruct (0 <? count s).
  - remember (write_all (profile_chunks r)
                (os_write "," (set_count (count s + 1) s))) as s2 eqn:E2.
    injection H as <-.
    exists (os_write "," (set_count (count s + 1) s)).
    split; [right; reflexivity | now rewrite E2].
  - remember (write_all (profile_chunks r) (set_count (count s + 1) s)) as s2 eqn:E2.
    injection H as <-.
    exists (set_count (count s + 1) s).
    split; [left; reflexivity | now rewrite E2].
Qed.

Lemma WriteProfile_defined r s :
  count s < INT_MAX -> representable r -> exists s', WriteProfile r s = Some s'.
Proof.
  intros Hn Hr. unfold WriteProfile.
  rewrite (count_post_incr_ok s Hn), Hr. eexists. reflexivity.
Qed.

Lemma WriteProfile_count r s s' :
  WriteProfile r s = Some s' -> count s' = count s + 1.
Proof.
  intros H. destruct (WriteProfile_inv r s s' H) as (_ & _ & s1 & Hs1 & ->).
  rewrite count_cout, write_all_count.
  destruct Hs1 as [-> | ->]; [reflexivity |].
  now rewrite os_write_count.
Qed.

Lemma WriteProfile_console r s s' :
  WriteProfile r s = Some s' ->
  console s' = console s ++ ["Profile written for: " +:+ escaped (Name r)].
Proof.
  intros H. destruct (WriteProfile_inv r s s' H) as (_ & _ & s1 & Hs1 & ->).
  rewrite console_cout, write_all_console.
  destruct Hs1 as [-> | ->]; [reflexivity |].
  now rewrite os_write_console.
Qed.

Lemma WriteProfile_file r s s' :
  WriteProfile r s = Some s' -> os_file (stream s') = os_file (stream s).
Proof.
  intros H. destruct (WriteProfile_inv r s s' H) as (_ & _ & s1 & Hs1 & ->).
  rewrite stream_cout, write_all_file.
  destruct Hs1 as [-> | ->]; [reflexivity |].
  now rewrite os_write_file.
Qed.

(** ** Timer calls as calls of WriteProfile *)

Lemma Stop_as_WriteProfile now h t s1 s2 :
  same_output s1 s2 ->
  match Stop now h t s1, WriteProfile (result_of t now h) s2 with
  | Some (t', s1'), Some s2' => t' = stopped t /\ same_output s1' s2'
  | None, None => True
  | _, _ => False
  end.
Proof.
  intros H. rewrite Stop_WriteProfile.
  pose proof (WriteProfile_same (result_of t now h) s1 s2 H) as Hw.
  destruct (WriteProfile (result_of t now h) s1),
           (WriteProfile (result_of t now h) s2); simpl in Hw; try contradiction.
  - split; [reflexivity | exact Hw].
  - exact I.
Qed.

(** On the files, the stream and the counter, a series of timer calls
    acts as the calls of [WriteProfile] it makes. *)
Lemma run_recorded cs : forall live s1 s2 rs live',
  recorded live cs = Some (rs, live') ->
  same_output s1 s2 ->
  match run cs (mkMachine live s1), write_records rs s2 with
  | Some m', Some s2' => timers m' = live' /\ same_output (st m') s2'
  | None, None => True
  | _, _ => False
  end.
Proof.
  induction cs as [|c cs IH]; intros live s1 s2 rs live' H Hs; simpl in H.
  - inversion H; subst. simpl. split; [reflexivity | exact Hs].
  - destruct c as [| |id name now|id now h|id now h]; try discriminate.
    + destruct (live !! id) eqn:E; [discriminate |].
      simpl run. simpl timers. rewrite E.
      apply (IH _ (cout ("Timer started for: " +:+ name) s1) s2 rs live' H).
      exact Hs.
    + destruct (live !! id) as [t|] eqn:E; [| discriminate].
      destruct (recorded (<[id := stopped t]> live) cs) as [[rs' l']|] eqn:E';
        [| discriminate].
      inversion H; subst. clear H.
      simpl run. simpl timers. simpl st. rewrite E.
      change (write_records (result_of t now h :: rs') s2)
        with (match WriteProfile (result_of t now h) s2 with
              | Some s' => write_records rs' s'
              | None => None
              end).
      pose proof (Stop_as_WriteProfile now h t s1 s2 Hs) as HS.
      destruct (Stop now h t s1) as [[t' s1']|],
               (WriteProfile (result_of t now h) s2) as [s2'|]; try contradiction.
      * destruct HS as [-> HS]. apply (IH _ s1' s2' rs' live' E' HS).
      * exact I.
    + destruct (live !! id) as [t|] eqn:E; [| discriminate].
      simpl run. simpl timers. simpl st. rewrite E. unfold Timer_dtor.
      destruct (m_Stopped t); simpl negb; cbv iota.
      * apply (IH _ s1 s2 rs live' H Hs).
      * destruct (recorded (delete id live) cs) as [[rs' l']|] eqn:E'; [| discriminate].
        inversion H; subst. clear H.
        change (write_records (result_of t now h :: rs') s2)
          with (match WriteProfile (result_of t now h) s2 with
                | Some s' => write_records rs' s'
                | None => None
                end).
        pose proof (Stop_as_WriteProfile now h t s1 s2 Hs) as HS.
        destruct (Stop now h t s1) as [[t' s1']|],
                 (WriteProfile (result_of t now h) s2) as [s2'|]; try contradiction.
        -- destruct HS as [_ HS]. apply (IH _ s1' s2' rs' live' E' HS).
        -- exact I.
Qed.

(** A series of [WriteProfile] calls is defined exactly by the counter and
    the durations, whatever the stream, and moves the counter by one per
    call. *)
Lemma write_records_defined rs : forall s,
  count s + Z.of_nat (length rs) <= INT_MAX ->
  Forall representable rs ->
  exists s', write_records rs s = Some s' /\
             count s' = count s + Z.of_nat (length rs) /\
             os_file (stream s') = os_file (stream s).
Proof.
  induction rs as [|r rs IH]; intros s Hn Hr.
  - exists s. simpl. rewrite Z.add_0_r. auto.
  - inversion Hr as [|? ? Hr1 Hrs]; subst.
    rewrite length_cons, Nat2Z.inj_succ in Hn.
    destruct (WriteProfile_defined r s) as (s1 & Hw); [lia | exact Hr1 |].
    pose proof (WriteProfile_count r s s1 Hw) as Hc.
    pose proof (WriteProfile_file r s s1 Hw) as Hf.
    destruct (IH s1) as (s' & Hw' & Hc' & Hf'); [lia | exact Hrs |].
    exists s'. simpl write_records. rewrite Hw.
    split; [exact Hw' | split; [| congruence]].
    rewrite Hc', Hc, length_cons, Nat2Z.inj_succ. lia.
Qed.

(** ** A stream that writes nothing *)

Lemma os_write_dead d s :
  dead s -> files (os_write d s) = files s /\ dead (os_write d s).
Proof.
  unfold dead, os_write. intros H.
  destruct (os_good (stream s)) eqn:Eg; [| auto].
  destruct (os_file (stream s)) eqn:Ef.
  - destruct H; congruence.
  - destruct d; simpl; rewrite ?Ef; auto.
Qed.

Lemma write_all_dead chunks : forall s,
  dead s -> files (write_all chunks s) = files s /\ dead (write_all chunks s).
Proof.
  induction chunks as [|c chunks IH]; intros s H; [auto |].
  rewrite write_all_cons.
  destruct (os_write_dead c s H) as [Hf Hd].
  destruct (IH _ Hd) as [Hf' Hd']. split; [congruence | exact Hd'].
Qed.

Lemma WriteProfile_dead r s s' :
  dead s -> WriteProfile r s = Some s' -> files s' = files s /\ dead s'.
Proof.
  intros Hd H. destruct (WriteProfile_inv r s s' H) as (_ & _ & s1 & Hs1 & ->).
  assert (H1 : files s1 = files s /\ dead s1).
  { destruct Hs1 as [-> | ->]; [split; [reflexivity | exact Hd] |].
    apply (os_write_dead "," (set_count (count s + 1) s)). exact Hd. }
  destruct H1 as [Hf1 Hd1].
  destruct (write_all_dead (profile_chunks r) s1 Hd1) as [Hf2 Hd2].
  generalize dependent (write_all (profile_chunks r) s1). intros s2 _ Hf2 Hd2.
  split; [rewrite files_cout; congruence | exact Hd2].
Qed.

Lemma write_records_dead rs : forall s s',
  dead s -> write_records rs s = Some s' -> files s' = files s /\ dead s'.
Proof.
  induction rs as [|r rs IH]; intros s s' Hd H; simpl in H.
  - inversion H; subst. auto.
  - destruct (WriteProfile r s) as [s1|] eqn:E; [| discriminate].
    destruct (WriteProfile_dead r s s1 Hd E) as [Hf1 Hd1].
    destruct (IH s1 s' Hd1 H) as [Hf Hd']. split; [congruence | exact Hd'].
Qed.

Lemma EndSession_dead s : dead s -> files (EndSession s) = files s.
Proof.
  intros Hd. unfold EndSession, WriteFooter, os_flush.
  rewrite files_cout.
  change (files (os_close (os_write footer_text s)) = files s).
  rewrite os_close_files. apply os_write_dead, Hd.
Qed.

Lemma same_output_dead s1 s2 : same_output s1 s2 -> dead s2 -> dead s1.
Proof. intros (_ & Hs & _) H. unfold dead in *. now rewrite Hs. Qed.

(** ** Files the stream is not on *)

Lemma os_write_away q d s :
  away q s -> files (os_write d s) !! q = files s !! q.
Proof.
  unfold away, os_write. intros H.
  destruct (os_good (stream s)); [| reflexivity].
  destruct (os_file (stream s)) as [p|] eqn:Ef.
  - simpl. apply lookup_insert_ne. congruence.
  - destruct d; reflexivity.
Qed.

Lemma os_write_keeps_away q d s : away q s -> away q (os_write d s).
Proof. unfold away. now rewrite os_write_file. Qed.

Lemma write_all_away q chunks : forall s,
  away q s ->
  files (write_all chunks s) !! q = files s !! q /\ away q (write_all chunks s).
Proof.
  induction chunks as [|c chunks IH]; intros s H; [auto |].
  rewrite write_all_cons.
  destruct (IH _ (os_write_keeps_away q c s H)) as [Hf Ha].
  split; [| exact Ha]. rewrite Hf. now apply os_write_away.
Qed.

Lemma WriteProfile_away q r s s' :
  away q s -> WriteProfile r s = Some s' ->
  files s' !! q = files s !! q /\ away q s'.
Proof.
  intros Ha H. pose proof (WriteProfile_file r s s' H) as Hfile.
  split; [| unfold away in *; now rewrite Hfile].
  destruct (WriteProfile_inv r s s' H) as (_ & _ & s1 & Hs1 & ->).
  assert (H1 : files s1 !! q = files s !! q /\ away q s1).
  { destruct Hs1 as [-> | ->]; [split; [reflexivity | exact Ha] |].
    split; [apply (os_write_away q "," (set_count (count s + 1) s)), Ha |].
    apply (os_write_keeps_away q "," (set_count (count s + 1) s)), Ha. }
  destruct H1 as [Hf1 Ha1].
  destruct (write_all_away q (profile_chunks r) s1 Ha1) as [Hf2 _].
  generalize dependent (write_all (profile_chunks r) s1). intros s2 _ _ Hf2.
  rewrite files_cout. congruence.
Qed.

Lemma BeginSession_away q name path s :
  away q s -> path <> q ->
  files (BeginSession name path s) !! q = files s !! q /\
  away q (BeginSession name path s).
Proof.
  intros Ha Hp. unfold BeginSession, WriteHeader, os_flush.
  assert (H1 : files (os_open path s) !! q = files s !! q /\ away q (os_open path s)).
  { unfold os_open, away in *. destruct (os_file (stream s)) as [p|] eqn:Ef.
    - simpl. split; [reflexivity | exact Ha].
    - destruct (decide (path ∈ unwritable s)); simpl.
      + split; [reflexivity | discriminate].
      + split; [now apply lookup_insert_ne | congruence]. }
  destruct H1 as [Hf1 Ha1].
  rewrite files_cout.
  change (files (os_write header_text (os_open path s)) !! q = files s !! q /\
          away q (os_write header_text (os_open path s))).
  split; [rewrite os_write_away by exact Ha1; exact Hf1 |].
  now apply os_write_keeps_away.
Qed.

Lemma EndSession_away q s :
  away q s -> files (EndSession s) !! q = files s !! q /\ away q (EndSession s).
Proof.
  intros Ha. split.
  - unfold EndSession, WriteFooter, os_flush. rewrite files_cout.
    change (files (os_close (os_write footer_text s)) !! q = files s !! q).
    rewrite os_close_files. now apply os_write_away.
  - destruct (EndSession_closes s) as [Hc _]. unfold away, closed in *.
    rewrite Hc. discriminate.
Qed.

Lemma Stop_inv now h t s t' s' :
  Stop now h t s = Some (t', s') ->
  exists s0, WriteProfile (result_of t now h) s = Some s0 /\
             t' = stopped t /\
             s' = cout ("Timer stopped for: " +:+ m_Name t) s0.
Proof.
  rewrite Stop_WriteProfile.
  destruct (WriteProfile (result_of t now h) s) as [s0|]; [| discriminate].
  intros H. inversion H. eauto.
Qed.

Lemma step_away q c m m' :
  step c m = Some m' ->
  away q (st m) ->
  q ∉ begin_paths [c] ->
  files (st m') !! q = files (st m) !! q /\ away q (st m').
Proof.
  intros H Ha Hq.
  destruct c as [name path| |id name now|id now h|id now h]; simpl in H.
  - inversion H; subst. simpl. apply BeginSession_away; [exact Ha |].
    intros ->. apply Hq. simpl. apply list_elem_of_here.
  - inversion H; subst. simpl. now apply EndSession_away.
  - destruct (timers m !! id); [discriminate |]. inversion H; subst. simpl.
    split; [reflexivity | exact Ha].
  - destruct (timers m !! id) as [t|]; [| discriminate].
    destruct (Stop now h t (st m)) as [[t' s']|] eqn:ES; [| discriminate].
    inversion H; subst. simpl.
    destruct (Stop_inv _ _ _ _ _ _ ES) as (s0 & Hw & _ & ->).
    rewrite files_cout. exact (WriteProfile_away q _ _ _ Ha Hw).
  - destruct (timers m !! id) as [t|]; [| discriminate].
    unfold Timer_dtor in H. destruct (m_Stopped t); simpl in H.
    + inversion H; subst. simpl. split; [reflexivity | exact Ha].
    + destruct (Stop now h t (st m)) as [[t' s']|] eqn:ES; [| discriminate].
      inversion H; subst. simpl.
      destruct (Stop_inv _ _ _ _ _ _ ES) as (s0 & Hw & _ & ->).
      rewrite files_cout. exact (WriteProfile_away q _ _ _ Ha Hw).
Qed.

Lemma begin_paths_cons q c cs :
  q ∉ begin_paths (c :: cs) -> (q ∉ begin_paths [c]) /\ (q ∉ begin_paths cs).
Proof.
  destruct c; simpl; intros H; split; try exact H; try apply not_elem_of_nil.
  - intros Hin. apply H. apply list_elem_of_singleton in Hin. subst.
    apply list_elem_of_here.
  - intros Hin. apply H. now apply list_elem_of_further.
Qed.

Lemma run_away q cs : forall m m',
  run cs m = Some m' ->
  away q (st m) ->
  q ∉ begin_paths cs ->
  files (st m') !! q = files (st m) !! q /\ away q (st m').
Proof.
  induction cs as [|c cs IH]; intros m m' H Ha Hq; simpl in H.
  - inversion H; subst. auto.
  - destruct (step c m) as [m1|] eqn:E; [| discriminate].
    destruct (begin_paths_cons q c cs Hq) as [Hq1 Hq2].
    destruct (step_away q c m m1 E Ha Hq1) as [Hf1 Ha1].
    destruct (IH m1 m' H Ha1 Hq2) as [Hf Ha']. split; [congruence | exact Ha'].
Qed.

(** ** The console *)

Lemma BeginSession_console name path s :
  console (BeginSession name path s) = console s ++ ["Session started: " +:+ name].
Proof.
  unfold BeginSession, WriteHeader, os_flush. rewrite console_cout.
  change (console (os_write header_text (os_open path s)) ++
            ["Session started: " +:+ name]
          = console s ++ ["Session started: " +:+ name]).
  now rewrite os_write_console, os_open_console.
Qed.

Lemma BeginSession_count name path s : count (BeginSession name path s) = count s.
Proof.
  unfold BeginSession, WriteHeader, os_flush. rewrite count_cout.
  change (count (os_write header_text (os_open path s)) = count s).
  rewrite os_write_count. unfold os_open.
  destruct (os_file (stream s)); [reflexivity |].
  destruct (decide (path ∈ unwritable s)); reflexivity.
Qed.

Lemma EndSession_console s :
  console (EndSession s) = console s ++ ["Session ended"].
Proof.
  unfold EndSession, WriteFooter, os_flush. rewrite console_cout.
  change (console (os_close (os_write footer_text s)) ++ ["Session ended"]
          = console s ++ ["Session ended"]).
  now rewrite os_close_console, os_write_console.
Qed.

Lemma Stop_console now h t s t' s' :
  Stop now h t s = Some (t', s') -> console s' = console s ++ stop_lines t.
Proof.
  intros H. destruct (Stop_inv _ _ _ _ _ _ H) as (s0 & Hw & _ & ->).
  rewrite console_cout, (WriteProfile_console _ _ _ Hw), <- app_assoc.
  reflexivity.
Qed.

Lemma run_console cs : forall m m',
  run cs m = Some m' ->
  console (st m') = console (st m) ++ log (timers m) cs.
Proof.
  induction cs as [|c cs IH]; intros m m' H; simpl in H.
  - inversion H; subst. simpl. now rewrite app_nil_r.
  - destruct (step c m) as [m1|] eqn:E; [| discriminate].
    rewrite (IH m1 m' H). clear IH H.
    destruct c as [name path| |id name now|id now h|id now h];
      cbn [step] in E; cbn [log].
    + inversion E; subst. cbn [st timers].
      rewrite BeginSession_console, <- app_assoc. reflexivity.
    + inversion E; subst. cbn [st timers].
      rewrite EndSession_console, <- app_assoc. reflexivity.
    + destruct (timers m !! id); [discriminate |]. inversion E; subst.
      cbn [st timers fst snd Timer_ctor]. rewrite console_cout, <- app_assoc.
      reflexivity.
    + destruct (timers m !! id) as [t|] eqn:Et; [| discriminate].
      destruct (Stop now h t (st m)) as [[t' s']|] eqn:ES; [| discriminate].
      inversion E; subst. cbn [st timers].
      rewrite (Stop_console _ _ _ _ _ _ ES), <- app_assoc.
      destruct (Stop_inv _ _ _ _ _ _ ES) as (_ & _ & -> & _). reflexivity.
    + destruct (timers m !! id) as [t|] eqn:Et; [| discriminate].
      unfold Timer_dtor in E.
      destruct (m_Stopped t); cbn [negb] in E; cbv iota in E.
      * inversion E; subst. reflexivity.
      * destruct (Stop now h t (st m)) as [[t' s']|] eqn:ES; [| discriminate].
        inversion E; subst. cbn [st timers].
        rewrite (Stop_console _ _ _ _ _ _ ES), <- app_assoc. reflexivity.
Qed.

(** ** Sessions, in general *)

Lemma run_timer_calls cs live s rs live' :
  recorded live cs = Some (rs, live') ->
  count s + Z.of_nat (length rs) <= INT_MAX ->
  Forall representable rs ->
  exists s' s2,
    run cs (mkMachine live s) = Some (mkMachine live' s') /\
    write_records rs s = Some s2 /\
    same_output s' s2 /\
    count s' = count s + Z.of_nat (length rs).
Proof.
  intros Hrec Hn Hrep.
  destruct (write_records_defined rs s Hn Hrep) as (s2 & Hw & Hc & _).
  pose proof (run_recorded cs live s s rs live' Hrec (same_output_refl s)) as R.
  rewrite Hw in R.
  destruct (run cs (mkMachine live s)) as [[l' s']|]; [| contradiction].
  destruct R as [Hl R]. simpl in Hl, R. subst l'.
  exists s', s2. split; [reflexivity | split; [exact Hw | split; [exact R |]]].
  destruct R as (_ & _ & Rc & _). congruence.
Qed.

(** A session around any timer calls, with timers that may be alive before
    it and after it. *)
Lemma run_session_general name path cs live s rs live' :
  closed s ->
  count s = 0 ->
  path ∉ unwritable s ->
  recorded live cs = Some (rs, live') ->
  Z.of_nat (length rs) <= INT_MAX ->
  Forall representable rs ->
  exists s',
    run (CBegin name path :: cs ++ [CEnd]) (mkMachine live s)
      = Some (mkMachine live' s') /\
    files s' = <[path := trace_text rs]> (files s) /\
    closed s' /\ count s' = 0 /\ unwritable s' = unwritable s.
Proof.
  intros Hc H0 Hw Hrec Hn Hrep.
  destruct (BeginSession_closed name path s Hc Hw) as (Hop1 & Hf1 & Hc1 & _ & Hu1).
  destruct (run_timer_calls cs live (BeginSession name path s) rs live' Hrec)
    as (s1 & s2 & Hrun & Hwr & Hsame & _); [lia | exact Hrep |].
  destruct (write_records_open rs _ path Hop1) as (s2' & Hwr' & Hop2 & _ & Hcont & Helse & Hu2);
    [lia | exact Hrep |].
  rewrite Hwr in Hwr'. inversion Hwr'; subst s2'. clear Hwr'.
  destruct Hsame as (Sf & Ss & Sc & Su).
  assert (Hop : open_at path s1) by (unfold open_at; rewrite Ss; exact Hop2).
  exists (EndSession s1). split.
  - change (run (CBegin name path :: cs ++ [CEnd]) (mkMachine live s))
      with (run (cs ++ [CEnd]) (mkMachine live (BeginSession name path s))).
    rewrite run_app, Hrun. reflexivity.
  - destruct (EndSession_closes s1) as (Ec & En & _ & Eu).
    split; [| split; [exact Ec | split; [exact En | congruence]]].
    rewrite (EndSession_open path s1 Hop).
    unfold content at 1. rewrite Sf. fold (content s2 path).
    rewrite Hcont, (content_insert _ _ _ _ Hf1), Hc1, H0, emitted_zero.
    apply map_eq. intros q. destruct (decide (q = path)) as [-> | Hq].
    + rewrite !lookup_insert_eq. unfold trace_text. now rewrite append_assoc.
    + rewrite !lookup_insert_ne by congruence.
      rewrite (Helse q Hq), Hf1. now apply lookup_insert_ne.
Qed.

(** Timer calls on a stream that writes nothing. *)
Lemma run_timer_calls_dead cs live s rs live' :
  dead s ->
  recorded live cs = Some (rs, live') ->
  count s + Z.of_nat (length rs) <= INT_MAX ->
  Forall representable rs ->
  exists s',
    run cs (mkMachine live s) = Some (mkMachine live' s') /\
    files s' = files s /\ dead s' /\
    count s' = count s + Z.of_nat (length rs).
Proof.
  intros Hd Hrec Hn Hrep.
  destruct (run_timer_calls cs live s rs live' Hrec Hn Hrep)
    as (s' & s2 & Hrun & Hw & Hsame & Hc).
  destruct (write_records_dead rs s s2 Hd Hw) as [Hf Hd2].
  exists s'. split; [exact Hrun | split; [| split; [| exact Hc]]].
  - destruct Hsame as (Sf & _). congruence.
  - exact (same_output_dead _ _ Hsame Hd2).
Qed.

Lemma EndSession_keeps_dead s : dead (EndSession s).
Proof. left. apply EndSession_closes. Qed.

Lemma step_dead c m m' :
  is_begin c = false ->
  dead (st m) ->
  step c m = Some m' ->
  files (st m') = files (st m) /\ dead (st m').
Proof.
  intros Hb Hd H.
  destruct c as [name path| |id name now|id now h|id now h];
    [discriminate | | | |]; cbn [step] in H.
  - inversion H; subst. cbn [st].
    split; [now apply EndSession_dead | apply EndSession_keeps_dead].
  - destruct (timers m !! id); [discriminate |]. inversion H; subst.
    split; [reflexivity | exact Hd].
  - destruct (timers m !! id) as [t|]; [| discriminate].
    destruct (Stop now h t (st m)) as [[t' s']|] eqn:ES; [| discriminate].
    inversion H; subst. cbn [st].
    destruct (Stop_inv _ _ _ _ _ _ ES) as (s0 & Hw & _ & ->).
    rewrite files_cout. exact (WriteProfile_dead _ _ _ Hd Hw).
  - destruct (timers m !! id) as [t|]; [| discriminate].
    unfold Timer_dtor in H. destruct (m_Stopped t); cbn [negb] in H; cbv iota in H.
    + inversion H; subst. split; [reflexivity | exact Hd].
    + destruct (Stop now h t (st m)) as [[t' s']|] eqn:ES; [| discriminate].
      inversion H; subst. cbn [st].
      destruct (Stop_inv _ _ _ _ _ _ ES) as (s0 & Hw & _ & ->).
      rewrite files_cout. exact (WriteProfile_dead _ _ _ Hd Hw).
Qed.

Lemma run_dead cs : forall m m',
  Forall (fun c => is_begin c = false) cs ->
  dead (st m) ->
  run cs m = Some m' ->
  files (st m') = files (st m) /\ dead (st m').
Proof.
  induction cs as [|c cs IH]; intros m m' Hb Hd H; simpl in H.
  - inversion H; subst. auto.
  - inversion Hb as [|? ? Hc Hcs]; subst.
    destruct (step c m) as [m1|] eqn:E; [| discriminate].
    destruct (step_dead c m m1 Hc Hd E) as [Hf1 Hd1].
    destruct (IH m1 m' Hcs Hd1 H) as [Hf Hd'].
    split; [congruence | exact Hd'].
Qed.

(** ** Texts that are not JSON *)

(** A trace in which a comma follows the opening bracket is not JSON,
    whatever comes after. *)
Lemma comma_after_header_Bad tail :
  Json.parse_doc 10 (header_text +:+ String "," tail) = Json.Bad.
Proof. reflexivity. Qed.

(** The records without the closing bracket: the array does not end. *)
Lemma parse_elements_records_cut f rs : forall r,
  Forall plain_name (r :: rs) ->
  Json.parse_elements (S (length rs) + (9 + f)) (records_then r rs EmptyString)
  = Json.Bad.
Proof.
  induction rs as [|r' rs IH]; intros r H;
    inversion H as [|? ? Hr Hrs]; subst.
  - change (Json.parse_elements (S (length []) + (9 + f)) ?s)
      with (Json.elements_step (Json.parse_value (9 + f)) (Json.parse_elements (9 + f)) s).
    unfold Json.elements_step, records_then.
    rewrite (parse_value_record f r _ Hr). reflexivity.
  - change (Json.parse_elements (S (length (r' :: rs)) + (9 + f)) ?s)
      with (Json.elements_step (Json.parse_value (S (length rs) + (9 + f)))
              (Json.parse_elements (S (length rs) + (9 + f))) s).
    unfold Json.elements_step.
    change (records_then r (r' :: rs) EmptyString)
      with (record_then r (String "," (records_then r' rs EmptyString))).
    replace (S (length rs) + (9 + f))%nat with (9 + (S (length rs) + f))%nat at 1 by lia.
    rewrite (parse_value_record _ r _ Hr).
    unfold Json.bind at 1. simpl Json.skip_ws. cbv iota.
    change (Ascii.eqb "," ",") with true. cbv iota.
    rewrite (IH r' Hrs). reflexivity.
Qed.

(** Header and records without the footer. *)
Lemma unfinished_trace_Bad rs :
  Forall plain_name rs ->
  exists fuel,
    Json.parse_doc fuel (header_text +:+ String.concat "," (map record_text rs))
    = Json.Bad.
Proof.
  intros H. destruct rs as [|r rs].
  - exists 10%nat. reflexivity.
  - exists (4 + (S (length rs) + (9 + 0)))%nat.
    rewrite <- (append_nil_r (String.concat "," (map record_text (r :: rs)))).
    rewrite concat_records_then.
    set (F := (S (length rs) + (9 + 0))%nat).
    change (header_text +:+ records_then r rs EmptyString)
      with (String "{"
              (member "otherData" (fun k => String " " (String "{" (String "}" k)))
                 (String ","
                    (member "traceEvents"
                       (fun k => String "[" (records_then r rs k))
                       EmptyString)))).
    unfold Json.parse_doc.
    change (Json.parse_value (4 + F) ?s)
      with (Json.value_step (Json.parse_members (3 + F)) (Json.parse_elements (3 + F)) s).
    unfold Json.value_step. simpl Json.skip_ws. cbv iota.
    change (Ascii.eqb "{" "{") with true. cbv iota.
    unfold member at 1, quoted at 1. simpl Json.skip_ws. cbv iota.
    change (Ascii.eqb dq "}") with false. cbv iota.
    change (String dq ("otherData" +:+ String dq (String ":" ?v)))
      with (member "otherData" (fun k => String " " (String "{" (String "}" k)))
              (String ","
                 (member "traceEvents"
                    (fun k => String "[" (records_then r rs k))
                    EmptyString))).
    change (3 + F)%nat with (S (S (1 + F))).
    rewrite (parse_members_more (S (1 + F)) "otherData" _ (Json.Obj []));
      [| reflexivity | reflexivity | reflexivity].
    change (S (1 + F)) with (S (S F)).
    rewrite (parse_members_bad (S F) "traceEvents");
      [reflexivity | reflexivity | reflexivity |].
    change (Json.parse_value (S F) ?s)
      with (Json.value_step (Json.parse_members F) (Json.parse_elements F) s).
    unfold Json.value_step. simpl Json.skip_ws. cbv iota.
    change (Ascii.eqb "[" "{") with false. change (Ascii.eqb "[" "[") with true.
    cbv iota.
    destruct (records_then_head r rs EmptyString) as (t & Et).
    rewrite Et. simpl Json.skip_ws. cbv iota.
    change (Ascii.eqb "{" "]") with false. cbv iota. rewrite <- Et.
    subst F. rewrite (parse_elements_records_cut 0 rs r H). reflexivity.
Qed.

(** ** The program *)

Lemma timestamps_representable a b :
  timestamp a -> timestamp b -> in_llong (b - a) = true.
Proof.
  unfold timestamp, in_llong, LLONG_MIN, LLONG_MAX. intros Ha Hb.
  apply andb_true_intro. split; apply Z.leb_le; lia.
Qed.

Lemma main_block_recorded e :
  recorded ∅ (main_block e)
  = Some ([record_function1 e; record_function2 e; record_main e], ∅).
Proof.
  destruct e. reflexivity.
Qed.

Lemma main_records_representable e :
  Forall timestamp (clock_readings e) ->
  Forall representable [record_function1 e; record_function2 e; record_main e].
Proof.
  unfold clock_readings. intros H.
  inversion H as [|? ? H1 H']; subst; clear H.
  inversion H' as [|? ? H2 H]; subst; clear H'.
  inversion H as [|? ? H3 H']; subst; clear H.
  inversion H' as [|? ? H4 H]; subst; clear H'.
  inversion H as [|? ? H5 H']; subst; clear H.
  inversion H' as [|? ? H6 _]; subst; clear H'.
  constructor; [exact (timestamps_representable _ _ H2 H3) |].
  constructor; [exact (timestamps_representable _ _ H4 H5) |].
  constructor; [exact (timestamps_representable _ _ H1 H6) |].
  constructor.
Qed.

Lemma main_block_log e :
  log ∅ (main_block e)
  = [ "Timer started for: " +:+ fn_main e;
      "Timer started for: " +:+ fn_function1 e;
      "Profile written for: " +:+ escaped (fn_function1 e);
      "Timer stopped for: " +:+ fn_function1 e;
      "Timer started for: " +:+ fn_function2 e;
      "Profile written for: " +:+ escaped (fn_function2 e);
      "Timer stopped for: " +:+ fn_function2 e;
      "Profile written for: " +:+ escaped (fn_main e);
      "Timer stopped for: " +:+ fn_main e ].
Proof.
  destruct e. reflexivity.
Qed.

(** X1.  [main], run in a fresh process in which [results.json] can be
    opened, leaves in [results.json] the trace of three records, in the order
    in which the scopes end: [function1], [function2], then [main] itself;
    each record holds the readings of its own timer.  With names free of
    backslashes and control characters the file is JSON. *)
Theorem main_writes_results_json (e : Readings) (fs : gmap string string)
    (ro : gset string) :
  default_filepath ∉ ro ->
  Forall timestamp (clock_readings e) ->
  Forall (fun n => plain n = true) (function_names e) ->
  exists s',
    run (main_calls e) (mkMachine ∅ (initial fs ro)) = Some (mkMachine ∅ s') /\
    files s'
    = <[default_filepath :=
          trace_text [record_function1 e; record_function2 e; record_main e]]> fs /\
    Json.parses_to
      (trace_text [record_function1 e; record_function2 e; record_main e])
      (trace_json [record_function1 e; record_function2 e; record_main e]).
Proof.
  intros Hw Ht Hp.
  pose proof (main_records_representable e Ht) as Hrep.
  destruct (run_session_general "Profile" default_filepath (main_block e) ∅
              (initial fs ro) _ ∅ eq_refl eq_refl Hw (main_block_recorded e))
    as (s' & Hrun & Hf & _); [simpl; unfold INT_MAX; lia | exact Hrep |].
  exists s'. split; [exact Hrun | split; [exact Hf |]].
  apply trace_parses. unfold function_names in Hp.
  inversion Hp as [|? ? P1 Hp']; subst; clear Hp.
  inversion Hp' as [|? ? P2 Hp]; subst; clear Hp'.
  inversion Hp as [|? ? P3 _]; subst; clear Hp.
  constructor; [exact P2 |].
  constructor; [exact P3 |].
  constructor; [exact P1 |].
  constructor.
Qed.

Lemma main_writes_results_json_witness :
  (default_filepath ∉ (∅ : gset string)) /\
  Forall timestamp (clock_readings sample_readings) /\
  Forall (fun n => plain n = true) (function_names sample_readings) /\
  exists s',
    run (main_calls sample_readings) (mkMachine ∅ (initial ∅ ∅))
      = Some (mkMachine ∅ s') /\
    files s'
    = <[default_filepath :=
          trace_text [record_function1 sample_readings;
                      record_function2 sample_readings;
                      record_main sample_readings]]> ∅.
Proof.
  assert (H1 : default_filepath ∉ (∅ : gset string)) by apply not_elem_of_empty.
  assert (H2 : Forall timestamp (clock_readings sample_readings))
    by (repeat constructor; vm_compute; discriminate).
  assert (H3 : Forall (fun n => plain n = true) (function_names sample_readings))
    by (repeat constructor).
  split; [exact H1 | split; [exact H2 | split; [exact H3 |]]].
  destruct (main_writes_results_json sample_readings ∅ ∅ H1 H2 H3)
    as (s' & Hrun & Hf & _).
  exists s'. split; [exact Hrun | exact Hf].
Defined.

(** X2.  What [main] prints: the session start, the start of the timer of
    [main], then for each of the two functions the start of its timer, the
    profile written and the timer stopped, then the profile of [main]
    written and its timer stopped, and the session end last. *)
Theorem main_console (e : Readings) (fs : gmap string string) (ro : gset string) :
  Forall timestamp (clock_readings e) ->
  exists m',
    run (main_calls e) (mkMachine ∅ (initial fs ro)) = Some m' /\
    console (st m')
    = [ "Session started: Profile";
        "Timer started for: " +:+ fn_main e;
        "Timer started for: " +:+ fn_function1 e;
        "Profile written for: " +:+ escaped (fn_function1 e);
        "Timer stopped for: " +:+ fn_function1 e;
        "Timer started for: " +:+ fn_function2 e;
        "Profile written for: " +:+ escaped (fn_function2 e);
        "Timer stopped for: " +:+ fn_function2 e;
        "Profile written for: " +:+ escaped (fn_main e);
        "Timer stopped for: " +:+ fn_main e;
        "Session ended" ].
Proof.
  intros Ht.
  pose proof (main_records_representable e Ht) as Hrep.
  set (s1 := BeginSession "Profile" default_filepath (initial fs ro)).
  assert (Hc1 : count s1 = 0) by apply BeginSession_count.
  destruct (run_timer_calls (main_block e) ∅ s1 _ ∅ (main_block_recorded e))
    as (s2 & _ & Hrun & _);
    [rewrite Hc1; simpl; unfold INT_MAX; lia | exact Hrep |].
  exists (mkMachine ∅ (EndSession s2)). split.
  - change (main_calls e)
      with (CBegin "Profile" default_filepath :: main_block e ++ [CEnd]).
    change (run (CBegin "Profile" default_filepath :: main_block e ++ [CEnd])
              (mkMachine ∅ (initial fs ro)))
      with (run (main_block e ++ [CEnd]) (mkMachine ∅ s1)).
    rewrite run_app, Hrun. reflexivity.
  - cbn [st]. rewrite EndSession_console.
    pose proof (run_console _ _ _ Hrun) as Hk. cbn [st timers] in Hk.
    rewrite Hk. subst s1. rewrite BeginSession_console, main_block_log.
    reflexivity.
Qed.

Lemma main_console_witness :
  Forall timestamp (clock_readings sample_readings) /\
  exists m',
    run (main_calls sample_readings) (mkMachine ∅ (initial ∅ ∅)) = Some m' /\
    console (st m')
    = [ "Session started: Profile";
        "Timer started for: int main()";
        "Timer started for: void function1()";
        "Profile written for: void function1()";
        "Timer stopped for: void function1()";
        "Timer started for: void function2()";
        "Profile written for: void function2()";
        "Timer stopped for: void function2()";
        "Profile written for: int main()";
        "Timer stopped for: int main()";
        "Session ended" ].
Proof.
  assert (H : Forall timestamp (clock_readings sample_readings))
    by (repeat constructor; vm_compute; discriminate).
  split; [exact H |].
  exact (main_console sample_readings ∅ ∅ H).
Defined.

Lemma main_block_open_recorded e :
  recorded ∅ (main_block_open e)
  = Some ([record_function1 e; record_function2 e], {[0%nat := timer_main e]}).
Proof.
  destruct e. reflexivity.
Qed.

Lemma main_without_block_log e :
  log ∅ (main_without_block_calls e)
  = [ "Session started: Profile";
      "Timer started for: " +:+ fn_main e;
      "Timer started for: " +:+ fn_function1 e;
      "Profile written for: " +:+ escaped (fn_function1 e);
      "Timer stopped for: " +:+ fn_function1 e;
      "Timer started for: " +:+ fn_function2 e;
      "Profile written for: " +:+ escaped (fn_function2 e);
      "Timer stopped for: " +:+ fn_function2 e;
      "Session ended";
      "Profile written for: " +:+ escaped (fn_main e);
      "Timer stopped for: " +:+ fn_main e ].
Proof.
  destruct e. reflexivity.
Qed.

(** X3.  [main] without the inner block: the timer of [main] is destroyed
    after [end_session()].  [results.json] holds the records of the two
    functions only, the profile of [main] is reported on the console after
    the session end, and the record counter is left at one. *)
Theorem main_without_block_loses_main (e : Readings) (fs : gmap string string)
    (ro : gset string) :
  default_filepath ∉ ro ->
  Forall timestamp (clock_readings e) ->
  exists s',
    run (main_without_block_calls e) (mkMachine ∅ (initial fs ro))
      = Some (mkMachine ∅ s') /\
    files s'
    = <[default_filepath := trace_text [record_function1 e; record_function2 e]]> fs /\
    count s' = 1 /\
    console s'
    = [ "Session started: Profile";
        "Timer started for: " +:+ fn_main e;
        "Timer started for: " +:+ fn_function1 e;
        "Profile written for: " +:+ escaped (fn_function1 e);
        "Timer stopped for: " +:+ fn_function1 e;
        "Timer started for: " +:+ fn_function2 e;
        "Profile written for: " +:+ escaped (fn_function2 e);
        "Timer stopped for: " +:+ fn_function2 e;
        "Session ended";
        "Profile written for: " +:+ escaped (fn_main e);
        "Timer stopped for: " +:+ fn_main e ].
Proof.
  intros Hw Ht.
  pose proof (main_records_representable e Ht) as Hrep.
  inversion Hrep as [|? ? R1 Hrep']; subst.
  inversion Hrep' as [|? ? R2 Hrep'']; subst.
  inversion Hrep'' as [|? ? R3 _]; subst.
  destruct (run_session_general "Profile" default_filepath (main_block_open e) ∅
              (initial fs ro) _ _ eq_refl eq_refl Hw (main_block_open_recorded e))
    as (s1 & Hrun & Hf & Hc & Hn & _);
    [simpl; unfold INT_MAX; lia | constructor; [exact R1 | constructor; [exact R2 | constructor]] |].
  destruct (Stop_closed (main_left e) (thread_hash e) (timer_main e) s1 Hc)
    as (s2 & HS & _ & Hc2 & Hf2 & _); [rewrite Hn; reflexivity | exact R3 |].
  assert (Hall : run (main_without_block_calls e) (mkMachine ∅ (initial fs ro))
                 = Some (mkMachine ∅ s2)).
  { change (main_without_block_calls e)
      with ((CBegin "Profile" default_filepath :: main_block_open e ++ [CEnd]) ++
            [CExit 0 (main_left e) (thread_hash e)]).
    rewrite run_app, Hrun. cbn [run step timers st].
    rewrite lookup_singleton_eq.
    rewrite (Timer_dtor_running (main_left e) (thread_hash e) (timer_main e) s1 eq_refl).
    rewrite HS.
    rewrite delete_singleton_eq. reflexivity. }
  exists s2. split; [exact Hall | split; [rewrite Hf2, Hf; reflexivity | split; [lia |]]].
  pose proof (run_console _ _ _ Hall) as Hk. cbn [st timers] in Hk.
  rewrite Hk, main_without_block_log. reflexivity.
Qed.

Lemma main_without_block_loses_main_witness :
  (default_filepath ∉ (∅ : gset string)) /\
  Forall timestamp (clock_readings sample_readings) /\
  exists s',
    run (main_without_block_calls sample_readings) (mkMachine ∅ (initial ∅ ∅))
      = Some (mkMachine ∅ s') /\
    files s'
    = <[default_filepath :=
          trace_text [record_function1 sample_readings;
                      record_function2 sample_readings]]> ∅ /\
    count s' = 1.
Proof.
  assert (H1 : default_filepath ∉ (∅ : gset string)) by apply not_elem_of_empty.
  assert (H2 : Forall timestamp (clock_readings sample_readings))
    by (repeat constructor; vm_compute; discriminate).
  split; [exact H1 | split; [exact H2 |]].
  destruct (main_without_block_loses_main sample_readings ∅ ∅ H1 H2)
    as (s' & Hrun & Hf & Hc & _).
  exists s'. split; [exact Hrun | split; [exact Hf | exact Hc]].
Defined.

(** ** Timer calls and sessions *)

(** X4.  Whatever the stream, a series of timer constructions, explicit
    stops and scope exits acts on the files, the stream and the counter as
    the calls of [WriteProfile] it makes: one for every explicit stop,
    stopped before or not, one for every scope exit of a timer still
    running, none for a construction or for the exit of a stopped timer. *)
Theorem timer_calls_act_as_WriteProfile_calls (cs : list call)
    (live live' : gmap nat InstrumentationTimer) (s : State)
    (rs : list ProfileResult) :
  recorded live cs = Some (rs, live') ->
  count s + Z.of_nat (length rs) <= INT_MAX ->
  Forall representable rs ->
  exists s' s2,
    run cs (mkMachine live s) = Some (mkMachine live' s') /\
    write_records rs s = Some s2 /\
    files s' = files s2 /\ stream s' = stream s2 /\ count s' = count s2 /\
    count s' = count s + Z.of_nat (length rs).
Proof.
  intros Hrec Hn Hrep.
  destruct (run_timer_calls cs live s rs live' Hrec Hn Hrep)
    as (s' & s2 & Hrun & Hw & (Sf & Ss & Sc & _) & Hc).
  exists s', s2. auto 10.
Qed.

Lemma timer_calls_act_as_WriteProfile_calls_witness :
  recorded ∅ stop_twice_calls
    = Some ([mkProfileResult "f" 100 150 7; mkProfileResult "f" 100 160 7], ∅) /\
  count session_P + Z.of_nat 2 <= INT_MAX /\
  Forall representable [mkProfileResult "f" 100 150 7; mkProfileResult "f" 100 160 7] /\
  exists s' s2,
    run stop_twice_calls (mkMachine ∅ session_P) = Some (mkMachine ∅ s') /\
    write_records [mkProfileResult "f" 100 150 7; mkProfileResult "f" 100 160 7]
      session_P = Some s2 /\
    files s' = files s2.
Proof.
  assert (H1 : recorded ∅ stop_twice_calls
               = Some ([mkProfileResult "f" 100 150 7;
                        mkProfileResult "f" 100 160 7], ∅)) by reflexivity.
  assert (H2 : count session_P + Z.of_nat 2 <= INT_MAX) by (vm_compute; discriminate).
  assert (H3 : Forall representable [mkProfileResult "f" 100 150 7;
                                     mkProfileResult "f" 100 160 7])
    by (constructor; [reflexivity | constructor; [reflexivity | constructor]]).
  split; [exact H1 | split; [exact H2 | split; [exact H3 |]]].
  destruct (timer_calls_act_as_WriteProfile_calls stop_twice_calls ∅ ∅ session_P _
              H1 H2 H3) as (s' & s2 & Hrun & Hw & Hf & _).
  exists s', s2. split; [exact Hrun | split; [exact Hw | exact Hf]].
Defined.

(** X5.  Two sessions, one after the other, each around any timer calls:
    each file holds the trace of the stops made inside its own session,
    timers may live from one session into the next, and when the two paths
    are the same the second trace replaces the first.  After each
    [EndSession] no file is open and the counter is at zero. *)
Theorem sessions_in_a_row (name1 path1 name2 path2 : string) (cs1 cs2 : list call)
    (live live1 live2 : gmap nat InstrumentationTimer)
    (rs1 rs2 : list ProfileResult) (s : State) :
  closed s ->
  count s = 0 ->
  path1 ∉ unwritable s ->
  path2 ∉ unwritable s ->
  recorded live cs1 = Some (rs1, live1) ->
  recorded live1 cs2 = Some (rs2, live2) ->
  Z.of_nat (length rs1) <= INT_MAX ->
  Z.of_nat (length rs2) <= INT_MAX ->
  Forall representable rs1 ->
  Forall representable rs2 ->
  exists s',
    run ((CBegin name1 path1 :: cs1 ++ [CEnd]) ++ (CBegin name2 path2 :: cs2 ++ [CEnd]))
      (mkMachine live s) = Some (mkMachine live2 s') /\
    files s' = <[path2 := trace_text rs2]> (<[path1 := trace_text rs1]> (files s)) /\
    closed s' /\ count s' = 0.
Proof.
  intros Hc H0 Hw1 Hw2 Hr1 Hr2 Hn1 Hn2 Hp1 Hp2.
  destruct (run_session_general name1 path1 cs1 live s rs1 live1 Hc H0 Hw1 Hr1 Hn1 Hp1)
    as (s1 & Hrun1 & Hf1 & Hc1 & H01 & Hu1).
  destruct (run_session_general name2 path2 cs2 live1 s1 rs2 live2 Hc1 H01)
    as (s2 & Hrun2 & Hf2 & Hc2 & H02 & _);
    [now rewrite Hu1 | exact Hr2 | exact Hn2 | exact Hp2 |].
  exists s2. rewrite run_app, Hrun1, Hrun2, Hf2, Hf1. auto.
Qed.

Lemma sessions_in_a_row_witness :
  closed (initial ∅ ∅) /\
  count (initial ∅ ∅) = 0 /\
  ("a.json" ∉ unwritable (initial ∅ ∅)) /\
  recorded ∅ (main_block sample_readings)
    = Some ([record_function1 sample_readings; record_function2 sample_readings;
             record_main sample_readings], ∅) /\
  recorded ∅ stop_twice_calls
    = Some ([mkProfileResult "f" 100 150 7; mkProfileResult "f" 100 160 7], ∅) /\
  exists s',
    run ((CBegin "one" "a.json" :: main_block sample_readings ++ [CEnd]) ++
         (CBegin "two" "a.json" :: stop_twice_calls ++ [CEnd]))
      (mkMachine ∅ (initial ∅ ∅)) = Some (mkMachine ∅ s') /\
    files s'
    = <["a.json" := trace_text [mkProfileResult "f" 100 150 7;
                                mkProfileResult "f" 100 160 7]]>
        (<["a.json" := trace_text [record_function1 sample_readings;
                                   record_function2 sample_readings;
                                   record_main sample_readings]]>
           (files (initial ∅ ∅))).
Proof.
  assert (H1 : closed (initial ∅ ∅)) by reflexivity.
  assert (H2 : count (initial ∅ ∅) = 0) by reflexivity.
  assert (H3 : "a.json" ∉ unwritable (initial ∅ ∅)) by apply not_elem_of_empty.
  assert (H4 : recorded ∅ (main_block sample_readings)
               = Some ([record_function1 sample_readings;
                        record_function2 sample_readings;
                        record_main sample_readings], ∅)) by reflexivity.
  assert (H5 : recorded ∅ stop_twice_calls
               = Some ([mkProfileResult "f" 100 150 7;
                        mkProfileResult "f" 100 160 7], ∅)) by reflexivity.
  split; [exact H1 | split; [exact H2 | split; [exact H3 | split; [exact H4 |
    split; [exact H5 |]]]]].
  destruct (sessions_in_a_row "one" "a.json" "two" "a.json" _ _ ∅ ∅ ∅ _ _ (initial ∅ ∅)
              H1 H2 H3 H3 H4 H5)
    as (s' & Hrun & Hf & _).
  - vm_compute; discriminate.
  - vm_compute; discriminate.
  - constructor; [reflexivity | constructor; [reflexivity |
      constructor; [reflexivity | constructor]]].
  - constructor; [reflexivity | constructor; [reflexivity | constructor]].
  - exists s'. split; [exact Hrun | exact Hf].
Defined.

(** X6.  A session that is begun and not ended: the file holds the header
    and the records written so far, and with names free of backslashes and
    control characters this text is not JSON; the footer that [EndSession]
    writes is what makes it one. *)
Theorem session_not_ended_is_not_JSON (name path : string) (cs : list call)
    (live live' : gmap nat InstrumentationTimer) (rs : list ProfileResult)
    (s : State) :
  closed s ->
  count s = 0 ->
  path ∉ unwritable s ->
  recorded live cs = Some (rs, live') ->
  Z.of_nat (length rs) <= INT_MAX ->
  Forall representable rs ->
  Forall plain_name rs ->
  exists s',
    run (CBegin name path :: cs) (mkMachine live s) = Some (mkMachine live' s') /\
    content s' path = header_text +:+ String.concat "," (map record_text rs) /\
    ~ Json.valid (content s' path) /\
    Json.valid (content (EndSession s') path).
Proof.
  intros Hc H0 Hw Hrec Hn Hrep Hplain.
  destruct (BeginSession_closed name path s Hc Hw) as (Hop1 & Hf1 & Hc1 & _ & _).
  destruct (run_timer_calls cs live (BeginSession name path s) rs live' Hrec)
    as (s1 & s2 & Hrun & Hwr & (Sf & Ss & _) & _); [lia | exact Hrep |].
  destruct (write_records_open rs _ path Hop1) as (s2' & Hwr' & Hop2 & _ & Hcont & _);
    [lia | exact Hrep |].
  rewrite Hwr in Hwr'. inversion Hwr'; subst s2'. clear Hwr'.
  assert (Hcontent : content s1 path
                     = header_text +:+ String.concat "," (map record_text rs)).
  { unfold content at 1. rewrite Sf. fold (content s2 path).
    now rewrite Hcont, (content_insert _ _ _ _ Hf1), Hc1, H0, emitted_zero. }
  exists s1. split; [exact Hrun | split; [exact Hcontent | split]].
  - rewrite Hcontent. destruct (unfinished_trace_Bad rs Hplain) as (fuel & HB).
    exact (not_valid_of_Bad fuel _ HB).
  - assert (Hop : open_at path s1) by (unfold open_at; rewrite Ss; exact Hop2).
    rewrite (content_insert _ _ _ _ (EndSession_open path s1 Hop)), Hcontent.
    exists (trace_json rs). rewrite append_assoc. now apply trace_parses.
Qed.

Lemma session_not_ended_is_not_JSON_witness :
  closed (initial ∅ ∅) /\
  count (initial ∅ ∅) = 0 /\
  ("r.json" ∉ unwritable (initial ∅ ∅)) /\
  exists s',
    run (CBegin "P" "r.json" :: main_block sample_readings) (mkMachine ∅ (initial ∅ ∅))
      = Some (mkMachine ∅ s') /\
    ~ Json.valid (content s' "r.json") /\
    Json.valid (content (EndSession s') "r.json").
Proof.
  assert (H1 : closed (initial ∅ ∅)) by reflexivity.
  assert (H2 : count (initial ∅ ∅) = 0) by reflexivity.
  assert (H3 : "r.json" ∉ unwritable (initial ∅ ∅)) by apply not_elem_of_empty.
  split; [exact H1 | split; [exact H2 | split; [exact H3 |]]].
  destruct (session_not_ended_is_not_JSON "P" "r.json" (main_block sample_readings)
              ∅ ∅ _ (initial ∅ ∅) H1 H2 H3 (main_block_recorded sample_readings))
    as (s' & Hrun & _ & Hn & Hv).
  - vm_compute; discriminate.
  - constructor; [reflexivity | constructor; [reflexivity |
      constructor; [reflexivity | constructor]]].
  - constructor; [reflexivity | constructor; [reflexivity |
      constructor; [reflexivity | constructor]]].
  - exists s'. split; [exact Hrun | split; [exact Hn | exact Hv]].
Defined.

(** X7.  The counter is not reset by [BeginSession].  When [WriteProfile]
    ran while no file was open (a timer stopped after [EndSession]), the
    first record of the next session is written after a comma, right behind
    the opening bracket, and no continuation of that file is JSON. *)
Theorem stale_counter_breaks_next_session (name path : string) (r : ProfileResult)
    (s : State) :
  closed s ->
  0 < count s ->
  count s < INT_MAX ->
  path ∉ unwritable s ->
  representable r ->
  exists s2,
    WriteProfile r (BeginSession name path s) = Some s2 /\
    content s2 path = header_text +:+ "," +:+ record_text r /\
    forall tail, ~ Json.valid (content s2 path +:+ tail).
Proof.
  intros Hc H0 Hn Hw Hr.
  destruct (BeginSession_closed name path s Hc Hw) as (Hop1 & Hf1 & Hc1 & _ & _).
  destruct (WriteProfile_open r _ path Hop1) as (s2 & Hwr & _ & _ & Hf2 & _);
    [lia | exact Hr |].
  assert (Hcontent : content s2 path = header_text +:+ "," +:+ record_text r).
  { rewrite (content_insert _ _ _ _ Hf2), (content_insert _ _ _ _ Hf1), Hc1.
    now rewrite (separator_pos _ H0). }
  exists s2. split; [exact Hwr | split; [exact Hcontent |]].
  intros tail. rewrite Hcontent, !append_assoc.
  change ("," +:+ record_text r +:+ tail) with (String "," (record_text r +:+ tail)).
  exact (not_valid_of_Bad 10 _ (comma_after_header_Bad _)).
Qed.

Lemma stale_counter_breaks_next_session_witness :
  closed after_late_stop /\
  0 < count after_late_stop /\
  count after_late_stop < INT_MAX /\
  ("next.json" ∉ unwritable after_late_stop) /\
  representable record_f1 /\
  exists s2,
    WriteProfile record_f1 (BeginSession "next" "next.json" after_late_stop) = Some s2 /\
    content s2 "next.json" = header_text +:+ "," +:+ record_text record_f1 /\
    forall tail, ~ Json.valid (content s2 "next.json" +:+ tail).
Proof.
  assert (H1 : closed after_late_stop) by (vm_compute; reflexivity).
  assert (H2 : 0 < count after_late_stop) by (vm_compute; reflexivity).
  assert (H3 : count after_late_stop < INT_MAX) by (vm_compute; reflexivity).
  assert (H4 : "next.json" ∉ unwritable after_late_stop)
    by (replace (unwritable after_late_stop) with (∅ : gset string) by reflexivity;
        apply not_elem_of_empty).
  assert (H5 : representable record_f1) by reflexivity.
  split; [exact H1 | split; [exact H2 | split; [exact H3 | split; [exact H4 |
    split; [exact H5 |]]]]].
  exact (stale_counter_breaks_next_session "next" "next.json" record_f1
           after_late_stop H1 H2 H3 H4 H5).
Defined.

(** ** Streams that write nothing *)

(** X8.  Without a [BeginSession], on a stream that has no file open or has
    failed, no call changes a file: timers, stops, scope exits and
    [EndSession] write nothing.  Each stop still prints its
    "Profile written for" line. *)
Theorem no_session_nothing_written (cs : list call) (m m' : Machine) :
  Forall (fun c => is_begin c = false) cs ->
  dead (st m) ->
  run cs m = Some m' ->
  files (st m') = files (st m) /\
  console (st m') = console (st m) ++ log (timers m) cs.
Proof.
  intros Hb Hd Hrun. split.
  - exact (proj1 (run_dead cs m m' Hb Hd Hrun)).
  - exact (run_console cs m m' Hrun).
Qed.

Lemma no_session_nothing_written_witness :
  exists m',
    run calls_without_begin (mkMachine ∅ (initial ∅ ∅)) = Some m' /\
    files (st m') = files (initial ∅ ∅) /\
    console (st m')
    = console (initial ∅ ∅) ++ log ∅ calls_without_begin.
Proof.
  destruct (run calls_without_begin (mkMachine ∅ (initial ∅ ∅))) as [m'|] eqn:E.
  - exists m'. split; [reflexivity |].
    apply (no_session_nothing_written calls_without_begin
             (mkMachine ∅ (initial ∅ ∅)) m').
    + repeat (constructor; [reflexivity |]). constructor.
    + left. reflexivity.
    + exact E.
  - vm_compute in E. discriminate E.
Defined.

(** X9.  A session on a path that cannot be opened: [BeginSession] reports
    nothing, the timer calls and [EndSession] run as usual and print their
    lines, and no file is created or changed. *)
Theorem session_on_unwritable_path (name path : string) (cs : list call)
    (live live' : gmap nat InstrumentationTimer) (rs : list ProfileResult)
    (s : State) :
  closed s ->
  path ∈ unwritable s ->
  recorded live cs = Some (rs, live') ->
  count s + Z.of_nat (length rs) <= INT_MAX ->
  Forall representable rs ->
  exists s',
    run (CBegin name path :: cs ++ [CEnd]) (mkMachine live s)
      = Some (mkMachine live' s') /\
    files s' = files s /\
    closed s' /\ count s' = 0 /\
    console s' = console s ++ log live (CBegin name path :: cs ++ [CEnd]).
Proof.
  intros Hc Hw Hrec Hn Hrep.
  destruct (BeginSession_unwritable name path s Hc Hw) as (Hf1 & Hs1 & Hc1).
  assert (Hd1 : dead (BeginSession name path s))
    by (right; rewrite Hs1; reflexivity).
  destruct (run_timer_calls_dead cs live (BeginSession name path s) rs live' Hd1 Hrec)
    as (s1 & Hrun & Hf & Hd & _); [lia | exact Hrep |].
  assert (R : run (CBegin name path :: cs ++ [CEnd]) (mkMachine live s)
              = Some (mkMachine live' (EndSession s1))).
  { change (run (CBegin name path :: cs ++ [CEnd]) (mkMachine live s))
      with (run (cs ++ [CEnd]) (mkMachine live (BeginSession name path s))).
    rewrite run_app, Hrun. reflexivity. }
  exists (EndSession s1).
  destruct (EndSession_closes s1) as (Ec & En & _ & _).
  split; [exact R | split; [| split; [exact Ec | split; [exact En |]]]].
  - rewrite (EndSession_dead s1 Hd). congruence.
  - exact (run_console _ _ _ R).
Qed.

Lemma session_on_unwritable_path_witness :
  closed locked_state /\
  ("locked.json" ∈ unwritable locked_state) /\
  exists s',
    run (CBegin "P" "locked.json" :: main_block sample_readings ++ [CEnd])
      (mkMachine ∅ locked_state) = Some (mkMachine ∅ s') /\
    files s' = files locked_state.
Proof.
  assert (H1 : closed locked_state) by reflexivity.
  assert (H2 : "locked.json" ∈ unwritable locked_state)
    by (change ("locked.json" ∈ ({["locked.json"]} : gset string));
        apply elem_of_singleton_2; reflexivity).
  split; [exact H1 | split; [exact H2 |]].
  destruct (session_on_unwritable_path "P" "locked.json" (main_block sample_readings)
              ∅ ∅ _ locked_state H1 H2 (main_block_recorded sample_readings))
    as (s' & Hrun & Hf & _).
  - vm_compute; discriminate.
  - constructor; [reflexivity | constructor; [reflexivity |
      constructor; [reflexivity | constructor]]].
  - exists s'. split; [exact Hrun | exact Hf].
Defined.

(** X10.  [BeginSession] while a file is still open opens nothing and puts
    the stream in a failed state: from then on, until the next
    [BeginSession], no call changes a file.  The open session's file gets
    no further record and no footer, and the new path gets no file. *)
Theorem begin_while_open_ends_all_output (name path p : string) (cs : list call)
    (m m' : Machine) :
  os_file (stream (st m)) = Some p ->
  Forall (fun c => is_begin c = false) cs ->
  run (CBegin name path :: cs) m = Some m' ->
  files (st m') = files (st m).
Proof.
  intros Ho Hb Hrun.
  destruct (BeginSession_still_open name path p (st m) Ho) as (Hf1 & Hs1 & _).
  change (run (CBegin name path :: cs) m)
    with (run cs (mkMachine (timers m) (BeginSession name path (st m)))) in Hrun.
  assert (Hd : dead (st (mkMachine (timers m) (BeginSession name path (st m)))))
    by (right; cbn [st]; rewrite Hs1; reflexivity).
  destruct (run_dead cs _ m' Hb Hd Hrun) as [Hf _].
  rewrite Hf. exact Hf1.
Qed.

Lemma begin_while_open_ends_all_output_witness :
  os_file (stream two_records_session) = Some "r.json" /\
  exists m',
    run (CBegin "Q" "q.json" :: calls_without_begin) (mkMachine ∅ two_records_session)
      = Some m' /\
    files (st m') = files two_records_session.
Proof.
  assert (H1 : os_file (stream two_records_session) = Some "r.json")
    by (vm_compute; reflexivity).
  split; [exact H1 |].
  destruct (run (CBegin "Q" "q.json" :: calls_without_begin)
              (mkMachine ∅ two_records_session)) as [m'|] eqn:E.
  - exists m'. split; [reflexivity |].
    apply (begin_while_open_ends_all_output "Q" "q.json" "r.json" calls_without_begin
             (mkMachine ∅ two_records_session) m').
    + exact H1.
    + repeat (constructor; [reflexivity |]). constructor.
    + exact E.
  - vm_compute in E. discriminate E.
Defined.

(** X11.  A file whose path is never given to [BeginSession], and which is
    not the file open at the start, is never created, truncated or written
    by any series of calls. *)
Theorem other_files_untouched (q : string) (cs : list call) (m m' : Machine) :
  run cs m = Some m' ->
  os_file (stream (st m)) <> Some q ->
  q ∉ begin_paths cs ->
  files (st m') !! q = files (st m) !! q.
Proof.
  intros Hrun Ha Hq. exact (proj1 (run_away q cs m m' Hrun Ha Hq)).
Qed.

Lemma other_files_untouched_witness :
  exists m',
    run (main_calls sample_readings)
      (mkMachine ∅ (initial {["notes.txt" := "kept"]} ∅)) = Some m' /\
    files (st m') !! "notes.txt" = Some "kept".
Proof.
  destruct (run (main_calls sample_readings)
              (mkMachine ∅ (initial {["notes.txt" := "kept"]} ∅))) as [m'|] eqn:E.
  - exists m'. split; [reflexivity |].
    rewrite (other_files_untouched "notes.txt" (main_calls sample_readings)
               (mkMachine ∅ (initial {["notes.txt" := "kept"]} ∅)) m' E).
    + reflexivity.
    + discriminate.
    + apply not_elem_of_cons. split; [discriminate | apply not_elem_of_nil].
  - vm_compute in E. discriminate E.
Defined.

(** X12.  What is printed on [std::cout] depends on the calls and on the
    timers alive alone, never on the stream, the counter or the files: a
    line for each session begun and ended and each timer constructed, and
    the two lines "Profile written for" (with the quotes of the name
    replaced) and "Timer stopped for" for each stop, written or not. *)
Theorem console_follows_the_calls (cs : list call) (m m' : Machine) :
  run cs m = Some m' ->
  console (st m') = console (st m) ++ log (timers m) cs.
Proof.
  exact (run_console cs m m').
Qed.

Lemma console_follows_the_calls_witness :
  exists m',
    run stop_twice_calls (mkMachine ∅ session_P) = Some m' /\
    console (st m') = console session_P ++ log ∅ stop_twice_calls.
Proof.
  destruct (run stop_twice_calls (mkMachine ∅ session_P)) as [m'|] eqn:E.
  - exists m'. split; [reflexivity |].
    exact (console_follows_the_calls stop_twice_calls (mkMachine ∅ session_P) m' E).
  - vm_compute in E. discriminate E.
Defined.

(** ** The name as written *)

Lemma replace_length old new s :
  String.length (replace old new s) = String.length s.
Proof. induction s as [|c s IH]; simpl; [reflexivity | now rewrite IH]. Qed.

Lemma replace_app old new a b :
  replace old new (a +:+ b) = replace old new a +:+ replace old new b.
Proof. induction a as [|c a IH]; simpl; [reflexivity | now rewrite IH]. Qed.

Lemma escaped_idempotent name : escaped (escaped name) = escaped name.
Proof.
  unfold escaped. induction name as [|c s IH]; simpl; [reflexivity |].
  rewrite IH. destruct (Ascii.eqb c dq) eqn:E; [reflexivity |].
  now rewrite E.
Qed.

Lemma escaped_eqb name :
  String.eqb (escaped name) name = negb (has_char dq name).
Proof.
  unfold escaped. induction name as [|c s IH]; simpl; [reflexivity |].
  destruct (Ascii.eqb c dq) eqn:E; simpl.
  - apply Ascii.eqb_eq in E. subst c. reflexivity.
  - now rewrite Ascii.eqb_refl.
Qed.

(** X13.  The name written for a record has the length of the name given,
    is the name itself exactly when that holds no double quote, and is not
    changed by a second replacement.  Two names that differ in a double
    quote against an apostrophe are written alike, so the trace cannot tell
    them apart. *)
Theorem written_name (name a b : string) :
  String.length (escaped name) = String.length name /\
  String.eqb (escaped name) name = negb (has_char dq name) /\
  escaped (escaped name) = escaped name /\
  escaped (a +:+ String dq b) = escaped (a +:+ String apostrophe b).
Proof.
  split; [apply replace_length |].
  split; [apply escaped_eqb |].
  split; [apply escaped_idempotent |].
  unfold escaped. rewrite !replace_app. reflexivity.
Qed.

(** ** Clock readings *)

(** X14.  [Stop] is defined for any two clock readings that are not
    negative, in either order, whatever the stream, as long as the counter
    is below [INT_MAX]: the subtraction stays inside [long long], the timer
    becomes stopped, one call of [WriteProfile] is counted and the two lines
    of a stop are printed. *)
Theorem Stop_defined_for_clock_readings (now tid_hash : Z)
    (t : InstrumentationTimer) (s : State) :
  timestamp (m_StartTimepoint t) ->
  timestamp now ->
  count s < INT_MAX ->
  exists s',
    Stop now tid_hash t s = Some (stopped t, s') /\
    count s' = count s + 1 /\
    console s' = console s ++ stop_lines t.
Proof.
  intros Ha Hb Hn.
  destruct (WriteProfile_defined (result_of t now tid_hash) s Hn) as (s1 & Hw).
  { exact (timestamps_representable _ _ Ha Hb). }
  assert (E : Stop now tid_hash t s
              = Some (stopped t, cout ("Timer stopped for: " +:+ m_Name t) s1))
    by (rewrite Stop_WriteProfile, Hw; reflexivity).
  exists (cout ("Timer stopped for: " +:+ m_Name t) s1).
  split; [exact E | split].
  - rewrite count_cout. exact (WriteProfile_count _ _ _ Hw).
  - exact (Stop_console _ _ _ _ _ _ E).
Qed.

Lemma Stop_defined_for_clock_readings_witness :
  timestamp (m_StartTimepoint timer_f) /\
  timestamp 40 /\
  count session_P < INT_MAX /\
  exists s',
    Stop 40 7 timer_f session_P = Some (stopped timer_f, s') /\
    count s' = count session_P + 1.
Proof.
  assert (H1 : timestamp (m_StartTimepoint timer_f))
    by (unfold timestamp, LLONG_MAX; simpl; lia).
  assert (H2 : timestamp 40) by (unfold timestamp, LLONG_MAX; lia).
  assert (H3 : count session_P < INT_MAX) by (vm_compute; reflexivity).
  split; [exact H1 | split; [exact H2 | split; [exact H3 |]]].
  destruct (Stop_defined_for_clock_readings 40 7 timer_f session_P H1 H2 H3)
    as (s' & HS & Hc & _).
  exists s'. split; [exact HS | exact Hc].
Defined.
